(** * mochi-mcp: response normalisation and the deck catalog loop

    A shallow embedding of [mochi_mcp/api.py] and [mochi_mcp/server.py].

    Values that come out of [json.loads] are modelled by the inductive
    [json]; a Python [dict] is an association list in insertion order,
    read with [dict_get] (Python's [d.get(k)]), [dict_has] ([k in d]) and
    [dict_item] ([d[k]], which raises [KeyError]).  Exceptions are the
    constructors of [exn], and a function that may raise returns a
    [result].  The HTTP transport behind [MochiClient._request] is a
    state machine over an arbitrary upstream state. *)

From Stdlib Require Import ZArith List String Ascii Bool Lia Arith.
From Stdlib Require Import Floats.PrimFloat.
From Stdlib Require Import DecimalString.
Import ListNotations.

Open Scope string_scope.
Open Scope Z_scope.

Set Warnings "-register-all".

(** ** JSON values as Python sees them *)

Inductive json : Type :=
| JNull : json                                  (* None *)
| JBool : bool -> json                          (* True / False *)
| JInt : Z -> json                              (* int, unbounded *)
| JFloat : float -> json                        (* float *)
| JStr : string -> json                         (* str *)
| JArr : list json -> json                      (* list *)
| JObj : list (string * json) -> json.          (* dict *)

Definition dict := list (string * json).

(** [isinstance(v, Mapping)], [isinstance(v, list)], [isinstance(v, str)].
    [bool] is a subclass of [int] in Python, so wherever the source tests
    [isinstance(v, int)] the model matches [JInt] and [JBool]. *)

Definition is_mapping (v : json) : bool :=
  match v with JObj _ => true | _ => false end.

Definition is_list (v : json) : bool :=
  match v with JArr _ => true | _ => false end.

Definition is_str (v : json) : bool :=
  match v with JStr _ => true | _ => false end.

Definition str_nonempty (s : string) : bool :=
  match s with EmptyString => false | String _ _ => true end.

(** Python truth value testing, as used by [if v], [not v] and [a or b]. *)

Definition truthy (v : json) : bool :=
  match v with
  | JNull => false
  | JBool b => b
  | JInt z => negb (z =? 0)
  | JFloat f => negb (PrimFloat.eqb f 0%float)
  | JStr s => str_nonempty s
  | JArr l => match l with [] => false | _ :: _ => true end
  | JObj d => match d with [] => false | _ :: _ => true end
  end.

Definition py_or (a b : json) : json := if truthy a then a else b.

Definition opt_truthy (o : option string) : bool :=
  match o with Some s => str_nonempty s | None => false end.

(** ** Exceptions *)

Inductive exn : Type :=
| MochiAPIError : string -> exn
| ValueError : string -> exn
| KeyError : string -> exn
| TypeError : exn.

Inductive result (A : Type) : Type :=
| Ok : A -> result A
| Raise : exn -> result A.

Arguments Ok {A} _.
Arguments Raise {A} _.

Definition rbind {A B : Type} (r : result A) (k : A -> result B) : result B :=
  match r with Ok a => k a | Raise e => Raise e end.

Notation "'let?' x ':=' r 'in' k" := (rbind r (fun x => k))
  (at level 10, x name, r at level 100, k at level 200).

(** ** Dictionaries *)

Fixpoint dict_find (d : dict) (k : string) : option json :=
  match d with
  | [] => None
  | (k', v) :: d' => if String.eqb k' k then Some v else dict_find d' k
  end.

(** [k in d] *)
Definition dict_has (d : dict) (k : string) : bool :=
  match dict_find d k with Some _ => true | None => false end.

(** [d.get(k)] *)
Definition dict_get (d : dict) (k : string) : json :=
  match dict_find d k with Some v => v | None => JNull end.

(** [d[k]] *)
Definition dict_item (d : dict) (k : string) : result json :=
  match dict_find d k with Some v => Ok v | None => Raise (KeyError k) end.

(** [d[k] = v]: an existing key keeps its position. *)
Fixpoint dict_set (d : dict) (k : string) (v : json) : dict :=
  match d with
  | [] => [(k, v)]
  | (k', v') :: d' =>
      if String.eqb k' k then (k, v) :: d' else (k', v') :: dict_set d' k v
  end.

(** [d.update(other)] *)
Definition dict_update (d other : dict) : dict :=
  fold_left (fun acc kv => dict_set acc (fst kv) (snd kv)) other d.

(** [[item for item in l if isinstance(item, Mapping)]] *)
Fixpoint mappings (l : list json) : list dict :=
  match l with
  | [] => []
  | JObj d :: l' => d :: mappings l'
  | _ :: l' => mappings l'
  end.

(** ** api.py: [PaginatedResult] *)

Record PaginatedResult : Type := mkPage {
  items : list dict;
  next_cursor : option string
}.

Definition to_payload (p : PaginatedResult) (collection_name : string) : dict :=
  let payload := [(collection_name, JArr (map JObj (items p)))] in
  if opt_truthy (next_cursor p)
  then match next_cursor p with
       | Some c => dict_set payload "nextCursor" (JStr c)
       | None => payload
       end
  else payload.

(** ** api.py: [MochiClient._parse_paginated] *)

(** Lines 177-180: the nested [data] object when there is one, else the
    response itself. *)
Definition container (data : dict) : dict :=
  match dict_get data "data" with
  | JObj data_field => data_field
  | _ => data
  end.

(** [k in c and isinstance(c[k], list)] *)
Definition has_list (c : dict) (k : string) : result bool :=
  if dict_has c k
  then let? v := dict_item c k in Ok (is_list v)
  else Ok false.

(** [[item for item in v if isinstance(item, Mapping)]]: iterating a
    [str] or a [dict] yields strings, none of them a mapping; a value
    that is not iterable raises [TypeError]. *)
Definition iter_mappings (v : json) : result (list dict) :=
  match v with
  | JArr l => Ok (mappings l)
  | JStr _ | JObj _ => Ok []
  | JNull | JBool _ | JInt _ | JFloat _ => Raise TypeError
  end.

(** Lines 182-185. *)
Definition page_items (c : dict) (collection_name : string) : result (list dict) :=
  let? named := has_list c collection_name in
  if (named : bool) then
    let? v := dict_item c collection_name in iter_mappings v
  else
    let? generic := has_list c "items" in
    if (generic : bool) then
      let? v := dict_item c "items" in iter_mappings v
    else Ok [].

(** Lines 187-189. *)
Definition page_cursor (c : dict) : option string :=
  let cursor_value := py_or (dict_get c "nextCursor") (dict_get c "cursor") in
  match cursor_value with
  | JStr s => if str_nonempty s then Some s else None
  | _ => None
  end.

Definition _parse_paginated (data : json) (collection_name : string)
  : result PaginatedResult :=
  match data with
  | JArr l => Ok (mkPage (mappings l) None)
  | JObj d =>
      let potential_container := container d in
      let? its := page_items potential_container collection_name in
      Ok (mkPage its (page_cursor potential_container))
  | _ => Ok (mkPage [] None)
  end.

(** ** api.py: [MochiClient._parse_item] *)

Definition unexpected_format : exn :=
  MochiAPIError "Unexpected response format from Mochi API".

(** [key in d and isinstance(d[key], Mapping)] *)
Definition has_mapping (d : dict) (key : string) : result bool :=
  if dict_has d key
  then let? v := dict_item d key in Ok (is_mapping v)
  else Ok false.

(** [dict(v)].  The source calls it on mappings only; on any other value
    the model raises [TypeError], and [copy_item_guarded] shows that the
    guard in front of each call excludes it. *)
Definition py_dict (v : json) : result dict :=
  match v with
  | JObj o => Ok o
  | _ => Raise TypeError
  end.

(** [dict(d[key])] *)
Definition copy_item (d : dict) (key : string) : result dict :=
  let? v := dict_item d key in py_dict v.

Definition _parse_item (data : json) (key : string) : result dict :=
  match data with
  | JObj d =>
      let? direct := has_mapping d key in
      if (direct : bool) then copy_item d key
      else
        match dict_get d "data" with
        | JObj data_field =>
            let? nested := has_mapping data_field key in
            if (nested : bool) then copy_item data_field key
            else Ok data_field
        | _ => Ok d
        end
  | _ => Raise unexpected_format
  end.

(** ** The normaliser's rules, stated directly

    [chosen_items] is the item list of a container without the exception
    plumbing.  [nonempty_str] is the test of line 188.  [stated_cursor]
    is the cursor rule as the specification words it: [nextCursor] when
    it is a non-empty string, else [cursor] when it is one.
    [fallback_cursor] is the rule with Python's [or]: [cursor] is
    consulted only when [nextCursor] is falsy. *)

Definition nonempty_str (v : json) : option string :=
  match v with
  | JStr s => if str_nonempty s then Some s else None
  | _ => None
  end.

Definition stated_cursor (c : dict) : option string :=
  match nonempty_str (dict_get c "nextCursor") with
  | Some s => Some s
  | None => nonempty_str (dict_get c "cursor")
  end.

Definition fallback_cursor (c : dict) : option string :=
  match nonempty_str (dict_get c "nextCursor") with
  | Some s => Some s
  | None =>
      if truthy (dict_get c "nextCursor") then None
      else nonempty_str (dict_get c "cursor")
  end.

Definition chosen_items (c : dict) (collection_name : string) : list dict :=
  match dict_get c collection_name with
  | JArr l => mappings l
  | _ => match dict_get c "items" with
         | JArr l => mappings l
         | _ => []
         end
  end.

(** ** [str] on the values the server converts *)

Definition str_of_int (z : Z) : string := NilZero.string_of_int (Z.to_int z).

Definition str_of_bool (b : bool) : string := if b then "True" else "False".

(** ** The HTTP transport *)

Record http_request : Type := mkRequest {
  rq_method : string;
  rq_path : string;
  rq_params : option dict;          (* the [params=] keyword *)
  rq_json : option dict             (* the [json=] keyword *)
}.

(** A response: its status, what [response.json()] gives ([None] when it
    raises [JSONDecodeError]) and [response.text]. *)
Record http_response : Type := mkResponse {
  status_code : Z;
  body : option json;
  text : string
}.

(** [self._client.request] answers or raises [httpx.HTTPError]. *)
Inductive http_reply : Type :=
| HTTPError : string -> http_reply
| Response : http_response -> http_reply.

(** ** server.py: the catalog entries *)

Record Annotations : Type := mkAnnotations { priority : float }.

Record Resource : Type := mkResource {
  name : string;
  uri : string;
  description : option string;
  annotations : option Annotations
}.

Definition _DECK_URI_PREFIX : string := "mochi://deck/".
Definition _MAX_DECK_RESOURCES : nat := 500.

(** What the gateway runs on.  Three Python builtins stay abstract:
    [repr] (which is also [str] on floats, lists and dicts), [str.strip]
    and [int] on a string, where [None] stands for [ValueError].  The
    upstream service is any state machine answering requests. *)
Class Runtime : Type := {
  py_repr : json -> string;
  py_strip : string -> string;
  py_int : string -> option Z;
  U : Type;
  transport : http_request -> U -> http_reply * U
}.

Section Gateway.

Context {R : Runtime}.

Definition py_str (v : json) : string :=
  match v with
  | JNull => "None"
  | JBool b => str_of_bool b
  | JInt z => str_of_int z
  | JStr s => s
  | JFloat _ | JArr _ | JObj _ => py_repr v
  end.

(** The world a handler runs in: the upstream state and the requests sent
    so far, oldest first. *)
Record world : Type := mkWorld {
  upstream : U;
  sent : list http_request
}.

Definition IO (A : Type) : Type := world -> result A * world.

Definition ret {A : Type} (a : A) : IO A := fun w => (Ok a, w).

Definition raise {A : Type} (e : exn) : IO A := fun w => (Raise e, w).

Definition lift {A : Type} (r : result A) : IO A := fun w => (r, w).

Definition bind {A B : Type} (m : IO A) (k : A -> IO B) : IO B :=
  fun w =>
    match m w with
    | (Ok a, w') => k a w'
    | (Raise e, w') => (Raise e, w')
    end.

Notation "'let!' x ':=' m 'in' k" := (bind m (fun x => k))
  (at level 10, x name, m at level 100, k at level 200).

(** *** api.py: [_extract_error_message], [_request], [_json] *)

Definition api_error (status : Z) : string :=
  "Mochi API error " ++ str_of_int status.

Fixpoint first_message (status : Z) (data : dict) (keys : list string) : string :=
  match keys with
  | [] => api_error status
  | key :: rest =>
      match dict_get data key with
      | JStr value => api_error status ++ ": " ++ value
      | _ => first_message status data rest
      end
  end.

Definition _extract_error_message (response : http_response) : string :=
  match body response with
  | None => api_error (status_code response) ++ ": " ++ py_strip (text response)
  | Some (JObj data) =>
      first_message (status_code response) data ["message"; "error"; "detail"]
  | Some _ => api_error (status_code response)
  end.

Definition _request (method path : string) (params json_body : option dict)
  : IO http_response :=
  fun w =>
    let rq := mkRequest method path params json_body in
    let (reply, u') := transport rq (upstream w) in
    let w' := mkWorld u' (sent w ++ [rq]) in
    match reply with
    | HTTPError msg =>
        (Raise (MochiAPIError ("HTTP error communicating with Mochi: " ++ msg)), w')
    | Response response =>
        if 400 <=? status_code response
        then (Raise (MochiAPIError (_extract_error_message response)), w')
        else (Ok response, w')
    end.

Definition _json (response : http_response) : result json :=
  match body response with
  | Some data => Ok data
  | None => Raise (MochiAPIError "Mochi API returned invalid JSON")
  end.

(** *** api.py: the client methods *)

Definition set_if_str (params : dict) (key : string) (value : option string) : dict :=
  match value with
  | Some s => if str_nonempty s then dict_set params key (JStr s) else params
  | None => params
  end.

Definition set_if_int (params : dict) (key : string) (value : option json) : dict :=
  match value with
  | Some v => if truthy v then dict_set params key v else params
  | None => params
  end.

Definition list_decks (cursor : option string) (limit : option json)
  : IO PaginatedResult :=
  let params := set_if_str [] "cursor" cursor in
  let params := set_if_int params "limit" limit in
  let! response := _request "GET" "/decks" (Some params) None in
  let! data := lift (_json response) in
  lift (_parse_paginated data "decks").

Definition get_deck (deck_id : string) : IO dict :=
  let! response := _request "GET" ("/decks/" ++ deck_id) None None in
  let! data := lift (_json response) in
  lift (_parse_item data "deck").

Definition list_notes (deck_id cursor : option string) (limit : option json)
  (query : option string) : IO PaginatedResult :=
  let params := set_if_str [] "deckId" deck_id in
  let params := set_if_str params "cursor" cursor in
  let params := set_if_int params "limit" limit in
  let params := set_if_str params "query" query in
  let! response := _request "GET" "/notes" (Some params) None in
  let! data := lift (_json response) in
  lift (_parse_paginated data "notes").

Definition get_note (note_id : string) : IO dict :=
  let! response := _request "GET" ("/notes/" ++ note_id) None None in
  let! data := lift (_json response) in
  lift (_parse_item data "note").

Definition create_deck (payload : dict) : IO dict :=
  let! response := _request "POST" "/decks" None (Some payload) in
  let! data := lift (_json response) in
  lift (_parse_item data "deck").

Definition update_deck (deck_id : string) (payload : dict) : IO dict :=
  let! response := _request "PATCH" ("/decks/" ++ deck_id) None (Some payload) in
  let! data := lift (_json response) in
  lift (_parse_item data "deck").

Definition delete_deck (deck_id : string) : IO unit :=
  let! _r := _request "DELETE" ("/decks/" ++ deck_id) None None in
  ret tt.

Definition create_note (payload : dict) : IO dict :=
  let! response := _request "POST" "/notes" None (Some payload) in
  let! data := lift (_json response) in
  lift (_parse_item data "note").

Definition update_note (note_id : string) (payload : dict) : IO dict :=
  let! response := _request "PATCH" ("/notes/" ++ note_id) None (Some payload) in
  let! data := lift (_json response) in
  lift (_parse_item data "note").

Definition delete_note (note_id : string) : IO unit :=
  let! _r := _request "DELETE" ("/notes/" ++ note_id) None None in
  ret tt.

(** *** server.py: [_deck_identifier], [_deck_to_resource] *)

Fixpoint first_identifier (deck : dict) (keys : list string) : option string :=
  match keys with
  | [] => None
  | key :: rest =>
      match dict_get deck key with
      | JStr s => if str_nonempty s then Some s else first_identifier deck rest
      | JInt z => Some (str_of_int z)
      | JBool b => Some (str_of_bool b)
      | _ => first_identifier deck rest
      end
  end.

Definition _deck_identifier (deck : dict) : option string :=
  first_identifier deck ["id"; "uuid"; "slug"].

(** Lines 363-371, once the identifier is known. *)
Definition build_resource (deck : dict) (identifier : string) : Resource :=
  let display :=
    py_str (py_or (py_or (dict_get deck "name") (dict_get deck "title"))
                  (JStr identifier)) in
  let desc := dict_get deck "description" in
  mkResource display
             (_DECK_URI_PREFIX ++ identifier)
             (match desc with JStr s => Some s | _ => None end)
             (if truthy desc then Some (mkAnnotations 0.5%float) else None).

Definition _deck_to_resource (deck : dict) : result Resource :=
  let identifier := _deck_identifier deck in
  if negb (opt_truthy identifier)
  then Raise (MochiAPIError "Deck payload is missing an identifier")
  else match identifier with
       | Some i => Ok (build_resource deck i)
       | None => Raise (MochiAPIError "Deck payload is missing an identifier")
       end.

(** *** server.py: [list_resources] *)

(** Lines 56-58: the [for] loop over one page. *)
Fixpoint append_decks (resources : list Resource) (decks : list dict)
  : result (list Resource) :=
  match decks with
  | [] => Ok resources
  | deck :: rest =>
      if opt_truthy (_deck_identifier deck)
      then let? r := _deck_to_resource deck in append_decks (resources ++ [r]) rest
      else append_decks resources rest
  end.

(** Lines 54-61: the [while True] loop.  [fuel] bounds the number of
    iterations; [None] means that the loop is still running when the
    fuel is spent. *)
Fixpoint list_resources_loop (fuel : nat) (resources : list Resource)
  (cursor : option string) (w : world) : option (result (list Resource) * world) :=
  match fuel with
  | O => None
  | S fuel' =>
      match list_decks cursor (Some (JInt 200)) w with
      | (Raise e, w1) => Some (Raise e, w1)
      | (Ok page, w1) =>
          match append_decks resources (items page) with
          | Raise e => Some (Raise e, w1)
          | Ok resources' =>
              if negb (opt_truthy (next_cursor page))
                 || (_MAX_DECK_RESOURCES <=? List.length resources')%nat
              then Some (Ok resources', w1)
              else list_resources_loop fuel' resources' (next_cursor page) w1
          end
      end
  end.

Definition list_resources (fuel : nat) (w : world)
  : option (result (list Resource) * world) :=
  match list_resources_loop fuel [] None w with
  | Some (Ok resources, w') => Some (Ok (firstn _MAX_DECK_RESOURCES resources), w')
  | Some (Raise e, w') => Some (Raise e, w')
  | None => None
  end.

(** *** server.py: argument helpers *)

Definition _optional_str (value : json) : option string :=
  match value with
  | JStr s => if str_nonempty s then Some s else None
  | JInt z => Some (str_of_int z)
  | JBool b => Some (str_of_bool b)
  | _ => None
  end.

Definition _optional_int (value : json) : result (option json) :=
  match value with
  | JInt _ | JBool _ => Ok (Some value)
  | JStr s =>
      if str_nonempty (py_strip s) then
        match py_int s with
        | Some z => Ok (Some (JInt z))
        | None => Raise (ValueError ("Expected integer, received " ++ py_repr value))
        end
      else Ok None
  | _ => Ok None
  end.

Definition _require_str (arguments : dict) (field : string) : result string :=
  match dict_get arguments field with
  | JStr s =>
      if str_nonempty s then Ok s
      else Raise (ValueError ("Field '" ++ field ++ "' is required and must be a string"))
  | JInt z => Ok (str_of_int z)
  | JBool b => Ok (str_of_bool b)
  | _ => Raise (ValueError ("Field '" ++ field ++ "' is required and must be a string"))
  end.

Definition _require_mapping (arguments : dict) (field : string) : result dict :=
  match dict_get arguments field with
  | JObj value => Ok value
  | _ => Raise (ValueError ("Field '" ++ field
                 ++ "' must be an object containing fields to send to Mochi"))
  end.

(** *** server.py: [call_tool] *)

Definition unknown_tool (tool_name : string) : exn :=
  MochiAPIError ("Unknown tool: " ++ tool_name).

Definition do_create_deck (arguments : dict) : IO dict :=
  let! deck_name := lift (_require_str arguments "name") in
  let payload := [("name", JStr deck_name)] in
  let payload := set_if_str payload "description"
                   (_optional_str (dict_get arguments "description")) in
  let payload := set_if_str payload "parentDeckId"
                   (_optional_str (dict_get arguments "parent_deck_id")) in
  let! payload :=
    (if dict_has arguments "fields"
     then let! fields := lift (_require_mapping arguments "fields") in
          ret (dict_update payload fields)
     else ret payload) in
  let! deck := create_deck payload in
  ret [("deck", JObj deck)].

Definition call_tool (read_only : bool) (tool_name : string) (arguments : dict)
  : IO dict :=
  if String.eqb tool_name "list_decks" then
    let cursor := _optional_str (dict_get arguments "cursor") in
    let! limit := lift (_optional_int (dict_get arguments "limit")) in
    let! page := list_decks cursor limit in
    ret (to_payload page "decks")
  else if String.eqb tool_name "get_deck" then
    let! deck_id := lift (_require_str arguments "deck_id") in
    let! deck := get_deck deck_id in
    ret [("deck", JObj deck)]
  else if String.eqb tool_name "list_notes" then
    let deck_id := _optional_str (dict_get arguments "deck_id") in
    let cursor := _optional_str (dict_get arguments "cursor") in
    let! limit := lift (_optional_int (dict_get arguments "limit")) in
    let query := _optional_str (dict_get arguments "query") in
    let! page := list_notes deck_id cursor limit query in
    ret (to_payload page "notes")
  else if String.eqb tool_name "get_note" then
    let! note_id := lift (_require_str arguments "note_id") in
    let! note := get_note note_id in
    ret [("note", JObj note)]
  else if read_only then raise (unknown_tool tool_name)
  else if String.eqb tool_name "create_deck" then do_create_deck arguments
  else if String.eqb tool_name "update_deck" then
    let! deck_id := lift (_require_str arguments "deck_id") in
    let! fields := lift (_require_mapping arguments "fields") in
    let! deck := update_deck deck_id fields in
    ret [("deck", JObj deck)]
  else if String.eqb tool_name "delete_deck" then
    let! deck_id := lift (_require_str arguments "deck_id") in
    let! _u := delete_deck deck_id in
    ret [("status", JStr "deleted"); ("deck_id", JStr deck_id)]
  else if String.eqb tool_name "create_note" then
    let! deck_id := lift (_require_str arguments "deck_id") in
    let! fields := lift (_require_mapping arguments "fields") in
    let payload := dict_set fields "deckId" (JStr deck_id) in
    let! note := create_note payload in
    ret [("note", JObj note)]
  else if String.eqb tool_name "update_note" then
    let! note_id := lift (_require_str arguments "note_id") in
    let! fields := lift (_require_mapping arguments "fields") in
    let! note := update_note note_id fields in
    ret [("note", JObj note)]
  else if String.eqb tool_name "delete_note" then
    let! note_id := lift (_require_str arguments "note_id") in
    let! _u := delete_note note_id in
    ret [("status", JStr "deleted"); ("note_id", JStr note_id)]
  else raise (unknown_tool tool_name).

(** *** The catalog loop as a step relation

    [deck_resources] lists the entries one page contributes.  A loop
    state is the accumulator, the cursor and the world at the top of an
    iteration; [advance] is one iteration that goes round again, and
    [advances n] is [n] of them. *)

Definition deck_resources (decks : list dict) : list Resource :=
  flat_map (fun deck =>
              match _deck_identifier deck with
              | Some i => [build_resource deck i]
              | None => []
              end) decks.

Definition loop_state : Type := (list Resource * option string * world)%type.

Inductive advance : loop_state -> loop_state -> Prop :=
| advance_page (acc : list Resource) (cursor : option string) (w : world)
    (page : PaginatedResult) (w1 : world) (acc' : list Resource) :
    list_decks cursor (Some (JInt 200)) w = (Ok page, w1) ->
    append_decks acc (items page) = Ok acc' ->
    opt_truthy (next_cursor page) = true ->
    (List.length acc' < _MAX_DECK_RESOURCES)%nat ->
    advance (acc, cursor, w) (acc', next_cursor page, w1).

Inductive advances : nat -> loop_state -> loop_state -> Prop :=
| advances_O (s : loop_state) : advances O s s
| advances_S (n : nat) (s1 s2 s3 : loop_state) :
    advance s1 s2 -> advances n s2 s3 -> advances (S n) s1 s3.

Definition run_from (fuel : nat) (s : loop_state)
  : option (result (list Resource) * world) :=
  let '(acc, cursor, w) := s in list_resources_loop fuel acc cursor w.

Definition accumulated (s : loop_state) : nat :=
  let '(acc, _, _) := s in List.length acc.

(** *** The tools and what they require *)

Definition read_tools : list string :=
  ["list_decks"; "get_deck"; "list_notes"; "get_note"].

Definition write_tools : list string :=
  ["create_deck"; "update_deck"; "delete_deck";
   "create_note"; "update_note"; "delete_note"].

Definition mem (s : string) (l : list string) : bool :=
  existsb (String.eqb s) l.

(** The tools [call_tool] serves in each mode. *)
Definition is_tool (read_only : bool) (tool_name : string) : bool :=
  mem tool_name read_tools || (negb read_only && mem tool_name write_tools).

(** The fields fetched with [_require_str] and with an unconditional
    [_require_mapping]. *)
Definition required_str (tool_name : string) : list string :=
  if mem tool_name ["get_deck"; "update_deck"; "delete_deck"; "create_note"]
  then ["deck_id"]
  else if mem tool_name ["get_note"; "update_note"; "delete_note"]
  then ["note_id"]
  else if String.eqb tool_name "create_deck" then ["name"]
  else [].

Definition required_mapping (tool_name : string) : list string :=
  if mem tool_name ["update_deck"; "create_note"; "update_note"]
  then ["fields"]
  else [].

(** A value [_require_str] refuses: anything but a non-empty string, an
    integer or a boolean. *)
Definition refused_str (v : json) : bool :=
  match v with
  | JStr s => negb (str_nonempty s)
  | JInt _ | JBool _ => false
  | _ => true
  end.

Definition rejected (tool_name : string) (arguments : dict) : bool :=
  existsb (fun f => refused_str (dict_get arguments f)) (required_str tool_name)
  || existsb (fun f => negb (is_mapping (dict_get arguments f)))
             (required_mapping tool_name).

End Gateway.

(** ** Upstream services used in the scenarios

    The builtins are instantiated by stand-ins; no scenario reaches them
    with an argument on which they would matter. *)

Definition scenario (S : Type) (t : http_request -> S -> http_reply * S) : Runtime :=
  {| py_repr := fun _ => "<repr>";
     py_strip := fun s => s;
     py_int := fun _ => None;
     U := S;
     transport := t |}.

Definition ok_json (j : json) : http_reply :=
  Response (mkResponse 200 (Some j) "").

Definition numbered_deck (i : nat) : json :=
  JObj [("id", JInt (Z.of_nat i)); ("name", JStr "deck")].

Definition decks_page (first count : nat) (cursor : option string) : json :=
  JObj (("decks", JArr (map numbered_deck (seq first count)))
        :: match cursor with
           | Some c => [("nextCursor", JStr c)]
           | None => []
           end).

(** Three pages, 550 decks in all, each with an identifier; the state
    counts the requests served. *)
Definition three_pages : Runtime :=
  scenario nat (fun _ served =>
    (ok_json match served with
             | O => decks_page 0 200 (Some "p1")
             | S O => decks_page 200 200 (Some "p2")
             | _ => decks_page 400 150 None
             end,
     S served)).

(** Full pages for ever: 200 identified decks and a cursor each time. *)
Definition full_pages : Runtime :=
  scenario nat (fun _ served =>
    (ok_json (decks_page (200 * served) 200 (Some "next")), S served)).

(** Pages for ever whose decks carry no identifier. *)
Definition anonymous_pages : Runtime :=
  scenario nat (fun _ served =>
    (ok_json (JObj [("decks", JArr [JObj [("name", JStr "untitled")]]);
                    ("nextCursor", JStr "more")]),
     S served)).

(** A good first page, then a server error. *)
Definition second_page_fails : Runtime :=
  scenario nat (fun _ served =>
    (match served with
     | O => ok_json (decks_page 0 200 (Some "p1"))
     | _ => Response (mkResponse 500 (Some (JObj [("error", JStr "boom")])) "")
     end,
     S served)).

(** A service that answers every request with one deck. *)
Definition one_deck : Runtime :=
  scenario nat (fun _ served =>
    (ok_json (JObj [("deck", JObj [("id", JStr "42")])]), S served)).

Definition start {R : Runtime} (u : U) : world := mkWorld u [].

(** The request of one catalog page and the pages of [three_pages]. *)
Definition page_request (cursor : option string) : http_request :=
  mkRequest "GET" "/decks"
            (Some (set_if_int (set_if_str [] "cursor" cursor) "limit" (Some (JInt 200))))
            None.

Definition numbered_page (first count : nat) (cursor : option string)
  : PaginatedResult :=
  mkPage (mappings (map numbered_deck (seq first count))) cursor.

(** ** Object identity: [_parse_item] over a store

    [dict(x)] builds a new object.  To speak about identity the values
    live in a store: a compound value is a reference to an object, a
    [dict] holds references to its members, and [dict(x)] allocates. *)

Module Store.

Definition loc : Type := nat.

Inductive value : Type :=
| VNone : value
| VBool : bool -> value
| VInt : Z -> value
| VFloat : float -> value
| VStr : string -> value
| VRef : loc -> value.

Inductive object : Type :=
| ODict : list (string * value) -> object
| OList : list value -> object.

Definition heap : Type := list object.

Definition lookup (h : heap) (l : loc) : option object := nth_error h l.

(** The bindings of [v] when [isinstance(v, Mapping)]. *)
Definition as_mapping (h : heap) (v : value) : option (list (string * value)) :=
  match v with
  | VRef l => match lookup h l with
              | Some (ODict d) => Some d
              | _ => None
              end
  | _ => None
  end.

Fixpoint find (d : list (string * value)) (k : string) : option value :=
  match d with
  | [] => None
  | (k', v) :: d' => if String.eqb k' k then Some v else find d' k
  end.

(** [d.get(k)] *)
Definition get (d : list (string * value)) (k : string) : value :=
  match find d k with Some v => v | None => VNone end.

(** [d[k]] *)
Definition item (d : list (string * value)) (k : string) : result value :=
  match find d k with Some v => Ok v | None => Raise (KeyError k) end.

Fixpoint set (d : list (string * value)) (k : string) (v : value)
  : list (string * value) :=
  match d with
  | [] => [(k, v)]
  | (k', v') :: d' =>
      if String.eqb k' k then (k, v) :: d' else (k', v') :: set d' k v
  end.

(** A new object gets the next free location. *)
Definition alloc (h : heap) (o : object) : loc * heap :=
  (List.length h, (h ++ [o])%list).

(** Overwriting the object at [l]; the store is unchanged when [l] is
    not allocated. *)
Fixpoint store (h : heap) (l : loc) (o : object) : heap :=
  match h, l with
  | [], _ => []
  | _ :: h', O => o :: h'
  | o' :: h', S l' => o' :: store h' l' o
  end.

(** [x[k] = v] for the object at [l]. *)
Definition setitem (h : heap) (l : loc) (k : string) (v : value) : heap :=
  match lookup h l with
  | Some (ODict d) => store h l (ODict (set d k v))
  | _ => h
  end.

(** [dict(v)]: a new object with the bindings of [v]. *)
Definition py_dict (h : heap) (v : value) : result loc * heap :=
  match as_mapping h v with
  | Some d => let (l, h') := alloc h (ODict d) in (Ok l, h')
  | None => (Raise TypeError, h)
  end.

(** [key in d and isinstance(d[key], Mapping)] *)
Definition has_mapping (h : heap) (d : list (string * value)) (key : string)
  : bool :=
  match find d key with
  | Some v => match as_mapping h v with Some _ => true | None => false end
  | None => false
  end.

(** [dict(d[key])] *)
Definition copy_item (h : heap) (d : list (string * value)) (key : string)
  : result loc * heap :=
  match item d key with
  | Ok v => py_dict h v
  | Raise e => (Raise e, h)
  end.

(** [MochiClient._parse_item], lines 193-205. *)
Definition _parse_item (h : heap) (data : value) (key : string)
  : result loc * heap :=
  match as_mapping h data with
  | Some d =>
      if has_mapping h d key then copy_item h d key
      else
        let data_field := get d "data" in
        match as_mapping h data_field with
        | Some inner =>
            if has_mapping h inner key then copy_item h inner key
            else py_dict h data_field
        | None => py_dict h data
        end
  | None => (Raise unexpected_format, h)
  end.

(** Reading a stored value back as a [json] tree, to depth [n]. *)
Fixpoint traverse {A B : Type} (f : A -> option B) (l : list A)
  : option (list B) :=
  match l with
  | [] => Some []
  | x :: l' =>
      match f x, traverse f l' with
      | Some y, Some r => Some (y :: r)
      | _, _ => None
      end
  end.

Fixpoint reify (n : nat) (h : heap) (v : value) : option json :=
  match v with
  | VNone => Some JNull
  | VBool b => Some (JBool b)
  | VInt z => Some (JInt z)
  | VFloat f => Some (JFloat f)
  | VStr s => Some (JStr s)
  | VRef l =>
      match n with
      | O => None
      | S n' =>
          match lookup h l with
          | Some (ODict d) =>
              option_map JObj
                (traverse (fun kv => option_map (pair (fst kv))
                                                (reify n' h (snd kv))) d)
          | Some (OList vs) => option_map JArr (traverse (reify n' h) vs)
          | None => None
          end
      end
  end.

End Store.

(** ** How handlers use the upstream

    [pure_io m]: [m] computes its result without looking at the world
    or changing it.  [resend rq] is the request [rq] as [_request] sends
    it.  [validates_then_calls m]: [m] either raises [ValueError] in the
    world it started in, or sends one request, ends in the world that
    request leaves, and raises the error of the request when it fails. *)

Section Effects.

Context {R : Runtime}.

Definition pure_io {A : Type} (m : IO A) : Prop :=
  exists r, forall w, m w = (r, w).

Definition resend (rq : http_request) : IO http_response :=
  _request (rq_method rq) (rq_path rq) (rq_params rq) (rq_json rq).

Definition validates_then_calls {A : Type} (m : IO A) : Prop :=
  forall w,
    (exists msg, m w = (Raise (ValueError msg), w))
    \/ (exists rq,
           snd (m w) = snd (resend rq w)
           /\ forall e, fst (resend rq w) = Raise e -> fst (m w) = Raise e).

(** What a request of the catalog loop looks like. *)
Definition is_page_request (rq : http_request) : Prop :=
  rq_method rq = "GET" /\ rq_path rq = "/decks" /\ rq_json rq = None
  /\ exists params, rq_params rq = Some params
                    /\ dict_get params "limit" = JInt 200.

End Effects.

(** [String.prefix] under a local name: [starts_with p s] is
    [s.startswith(p)]. *)
Definition starts_with (p s : string) : bool := String.prefix p s.

(** ** server.py: [list_tools] *)

Record ToolAnnotations : Type := mkToolAnnotations {
  readOnlyHint : option bool;
  destructiveHint : option bool
}.

Record Tool : Type := mkTool {
  tool_name : string;
  tool_description : string;
  inputSchema : dict;
  tool_annotations : ToolAnnotations
}.

(** Lines 415-428.  A [ToolAnnotations] object is truthy, so [or] picks
    the default only for [None]. *)
Definition _tool_definition (name description : string) (input_schema : dict)
  (annotations : option ToolAnnotations) : Tool :=
  mkTool name description input_schema
         (match annotations with
          | Some a => a
          | None => mkToolAnnotations (Some true) None
          end).

(** The three shapes of property the schemas use. *)
Definition string_property (description : string) : json :=
  JObj [("type", JStr "string"); ("description", JStr description)].

Definition object_property (description : string) : json :=
  JObj [("type", JStr "object"); ("description", JStr description)].

Definition limit_property (description : string) : json :=
  JObj [("type", JStr "integer"); ("minimum", JInt 1); ("maximum", JInt 200);
        ("description", JStr description)].

(** A schema with and without a [required] entry. *)
Definition schema (properties : dict) (required : list string) : dict :=
  [("type", JStr "object");
   ("properties", JObj properties);
   ("required", JArr (map JStr required));
   ("additionalProperties", JBool false)].

Definition open_schema (properties : dict) : dict :=
  [("type", JStr "object");
   ("properties", JObj properties);
   ("additionalProperties", JBool false)].

(** Lines 79-158. *)
Definition read_tool_definitions : list Tool :=
  [ _tool_definition "list_decks"
      "List decks from the authenticated Mochi workspace."
      (open_schema
         [("limit", limit_property "Maximum number of decks to return.");
          ("cursor", string_property "Cursor returned by a previous list_decks call.")])
      None;
    _tool_definition "get_deck"
      "Fetch metadata about a single deck by identifier."
      (schema [("deck_id", string_property "Deck identifier (id or slug).")]
              ["deck_id"])
      None;
    _tool_definition "list_notes"
      "List notes/cards from Mochi. Optionally scope to a deck or search query."
      (open_schema
         [("deck_id", string_property "Only return notes that belong to this deck.");
          ("query", string_property "Full text search term.");
          ("limit", limit_property "Maximum number of notes to return.");
          ("cursor", string_property "Cursor returned by a previous list_notes call.")])
      None;
    _tool_definition "get_note"
      "Fetch a single note/card by identifier."
      (schema [("note_id", string_property "Note identifier.")] ["note_id"])
      None ].

(** Lines 161-264. *)
Definition write_tool_definitions : list Tool :=
  [ _tool_definition "create_deck"
      "Create a new deck in Mochi."
      (schema
         [("name", string_property "Name of the deck.");
          ("description", string_property "Optional deck description.");
          ("parent_deck_id", string_property "Optional parent deck identifier.");
          ("fields", object_property
                       "Additional raw fields to merge into the request body.")]
         ["name"])
      (Some (mkToolAnnotations (Some false) (Some false)));
    _tool_definition "update_deck"
      "Update fields on an existing deck."
      (schema
         [("deck_id", string_property "Deck identifier.");
          ("fields", object_property "Fields to update on the deck payload.")]
         ["deck_id"; "fields"])
      (Some (mkToolAnnotations (Some false) None));
    _tool_definition "delete_deck"
      "Delete a deck and its notes."
      (schema [("deck_id", string_property "Deck identifier.")] ["deck_id"])
      (Some (mkToolAnnotations (Some false) (Some true)));
    _tool_definition "create_note"
      "Create a new note/card in Mochi."
      (schema
         [("deck_id", string_property "Deck to add the note to.");
          ("fields", object_property
                       "Payload describing the note fields (front/back, etc).")]
         ["deck_id"; "fields"])
      (Some (mkToolAnnotations (Some false) None));
    _tool_definition "update_note"
      "Update an existing note/card."
      (schema
         [("note_id", string_property "Note identifier.");
          ("fields", object_property "Fields to update on the note.")]
         ["note_id"; "fields"])
      (Some (mkToolAnnotations (Some false) None));
    _tool_definition "delete_note"
      "Delete a note/card."
      (schema [("note_id", string_property "Note identifier.")] ["note_id"])
      (Some (mkToolAnnotations (Some false) (Some true))) ].

Definition list_tools (read_only : bool) : list Tool :=
  if negb read_only
  then (read_tool_definitions ++ write_tool_definitions)%list
  else read_tool_definitions.

(** The names under a schema's [required] key. *)
Fixpoint strings_of (l : list json) : list string :=
  match l with
  | [] => []
  | JStr s :: l' => s :: strings_of l'
  | _ :: l' => strings_of l'
  end.

Definition schema_required (t : Tool) : list string :=
  match dict_get (inputSchema t) "required" with
  | JArr l => strings_of l
  | _ => []
  end.

Definition advertised (read_only : bool) (name : string) : bool :=
  mem name (map tool_name (list_tools read_only)).

(** A service that accepts everything and answers 204 without a body. *)
Definition no_content : Runtime :=
  scenario nat (fun _ served => (Response (mkResponse 204 None ""), S served)).
(** * Properties of the response normaliser *)

Lemma dict_item_get (d : dict) (k : string) :
  dict_has d k = true -> dict_item d k = Ok (dict_get d k).
Proof.
  unfold dict_has, dict_item, dict_get.
  destruct (dict_find d k); [reflexivity | discriminate].
Qed.

Lemma dict_get_absent (d : dict) (k : string) :
  dict_has d k = false -> dict_get d k = JNull.
Proof.
  unfold dict_has, dict_get.
  destruct (dict_find d k); [discriminate | reflexivity].
Qed.

(** [has_list] never raises: the subscript is guarded by [in]. *)
Lemma has_list_spec (c : dict) (k : string) :
  has_list c k = Ok (is_list (dict_get c k)).
Proof.
  unfold has_list.
  destruct (dict_has c k) eqn:H.
  - rewrite (dict_item_get _ _ H). reflexivity.
  - rewrite (dict_get_absent _ _ H). reflexivity.
Qed.

Lemma has_mapping_spec (d : dict) (k : string) :
  has_mapping d k = Ok (is_mapping (dict_get d k)).
Proof.
  unfold has_mapping.
  destruct (dict_has d k) eqn:H.
  - rewrite (dict_item_get _ _ H). reflexivity.
  - rewrite (dict_get_absent _ _ H). reflexivity.
Qed.

Lemma is_list_has (c : dict) (k : string) :
  is_list (dict_get c k) = true -> dict_has c k = true.
Proof.
  unfold dict_get, dict_has.
  destruct (dict_find c k); [reflexivity | discriminate].
Qed.

Lemma is_mapping_has (c : dict) (k : string) :
  is_mapping (dict_get c k) = true -> dict_has c k = true.
Proof.
  unfold dict_get, dict_has.
  destruct (dict_find c k); [reflexivity | discriminate].
Qed.

Lemma page_items_spec (c : dict) (k : string) :
  page_items c k = Ok (chosen_items c k).
Proof.
  unfold page_items, chosen_items.
  rewrite has_list_spec. cbn [rbind].
  destruct (is_list (dict_get c k)) eqn:Hk.
  - rewrite (dict_item_get _ _ (is_list_has _ _ Hk)). cbn [rbind].
    destruct (dict_get c k); try discriminate. reflexivity.
  - rewrite has_list_spec. cbn [rbind].
    destruct (is_list (dict_get c "items")) eqn:Hi.
    + rewrite (dict_item_get _ _ (is_list_has _ _ Hi)). cbn [rbind].
      destruct (dict_get c k); try discriminate;
        destruct (dict_get c "items"); try discriminate; reflexivity.
    + destruct (dict_get c k); try discriminate;
        destruct (dict_get c "items"); try discriminate; reflexivity.
Qed.

Lemma _parse_paginated_object (d : dict) (k : string) :
  _parse_paginated (JObj d) k =
  Ok (mkPage (chosen_items (container d) k) (page_cursor (container d))).
Proof.
  unfold _parse_paginated. rewrite page_items_spec. reflexivity.
Qed.

Lemma page_cursor_fallback (c : dict) : page_cursor c = fallback_cursor c.
Proof.
  unfold page_cursor, fallback_cursor, py_or, nonempty_str.
  destruct (dict_get c "nextCursor") as [ | b | z | f | s | l | o]; cbn [truthy].
  - reflexivity.
  - destruct b; reflexivity.
  - destruct (z =? 0); reflexivity.
  - destruct (PrimFloat.eqb f 0); reflexivity.
  - destruct s; reflexivity.
  - destruct l; reflexivity.
  - destruct o; reflexivity.
Qed.

(** The rule as worded and the rule of the code agree as long as
    [nextCursor] is absent, falsy or a string. *)
Lemma stated_cursor_agrees (c : dict) :
  truthy (dict_get c "nextCursor") = false \/ is_str (dict_get c "nextCursor") = true ->
  fallback_cursor c = stated_cursor c.
Proof.
  unfold fallback_cursor, stated_cursor, nonempty_str.
  intros [H | H].
  - rewrite H. destruct (dict_get c "nextCursor"); reflexivity.
  - destruct (dict_get c "nextCursor"); try discriminate.
    destruct s; reflexivity.
Qed.

(** C1, as stated, fails: with [nextCursor] bound to the number 42 and
    [cursor] bound to ["abc"], the claim promises the cursor ["abc"],
    and the page built by [_parse_paginated] has none. *)
Lemma next_cursor_truthy_nonstring_blocks_fallback :
  let c := [("nextCursor", JInt 42); ("cursor", JStr "abc")] in
  container c = c
  /\ stated_cursor c = Some "abc"
  /\ _parse_paginated (JObj c) "decks" = Ok (mkPage [] None).
Proof. repeat split. Qed.

(** C1, amended: the cursor of the page built from an object is the
    container's [nextCursor] when that is a non-empty string; when
    [nextCursor] is absent or falsy it is the container's [cursor] when
    that is a non-empty string; in every other case it is absent. *)
Theorem next_cursor_rule (d : dict) (collection_name : string) :
  exists its,
    _parse_paginated (JObj d) collection_name
    = Ok (mkPage its (fallback_cursor (container d))).
Proof.
  exists (chosen_items (container d) collection_name).
  rewrite _parse_paginated_object, page_cursor_fallback. reflexivity.
Qed.

(** C7, as stated, fails in its last part: an object without any
    recognised array still hands over its cursor. *)
Lemma object_without_arrays_keeps_cursor :
  let raw := JObj [("cursor", JStr "abc")] in
  chosen_items (container [("cursor", JStr "abc")]) "decks" = []
  /\ _parse_paginated raw "decks" = Ok (mkPage [] (Some "abc"))
  /\ _parse_paginated raw "decks" <> Ok (mkPage [] None).
Proof. repeat split. discriminate. Qed.

(** C7, amended: [_parse_paginated] raises on no input; a top-level value
    that is neither an array nor an object gives the empty page with no
    cursor, and an object none of whose candidate keys holds an array
    gives a page without items. *)
Theorem parse_paginated_total (data : json) (collection_name : string) :
  (exists page, _parse_paginated data collection_name = Ok page)
  /\ match data with
     | JArr _ => True
     | JObj d =>
         if is_list (dict_get (container d) collection_name)
            || is_list (dict_get (container d) "items")
         then True
         else exists cur,
             _parse_paginated data collection_name = Ok (mkPage [] cur)
     | _ => _parse_paginated data collection_name = Ok (mkPage [] None)
     end.
Proof.
  destruct data as [ | b | z | f | s | l | d];
    try (split; [eexists; reflexivity | first [exact I | reflexivity]]).
  rewrite _parse_paginated_object. split; [eexists; reflexivity | ].
    destruct (is_list (dict_get (container d) collection_name)) eqn:Hk;
      [exact I | ].
    destruct (is_list (dict_get (container d) "items")) eqn:Hi; [exact I | ].
    cbn [orb]. eexists. unfold chosen_items.
    destruct (dict_get (container d) collection_name); try discriminate;
      destruct (dict_get (container d) "items"); try discriminate; reflexivity.
Qed.

(** Each [dict(...)] of [_parse_item] sits behind its guard. *)
Lemma copy_item_guarded (d : dict) (key : string) :
  is_mapping (dict_get d key) = true ->
  exists o, dict_get d key = JObj o /\ copy_item d key = Ok o.
Proof.
  intros H. unfold copy_item.
  rewrite (dict_item_get _ _ (is_mapping_has _ _ H)). cbn [rbind].
  destruct (dict_get d key); try discriminate.
  eexists; split; reflexivity.
Qed.

(** What [_parse_item] picks out of an object. *)
Lemma _parse_item_object (d : dict) (key : string) :
  _parse_item (JObj d) key =
  Ok match dict_get d key with
     | JObj o => o
     | _ => match dict_get d "data" with
            | JObj data_field =>
                match dict_get data_field key with
                | JObj o => o
                | _ => data_field
                end
            | _ => d
            end
     end.
Proof.
  unfold _parse_item. rewrite has_mapping_spec. cbn [rbind].
  destruct (is_mapping (dict_get d key)) eqn:Hk.
  - destruct (copy_item_guarded _ _ Hk) as [o [-> ->]]. reflexivity.
  - assert (Hd : forall T (a b : T),
               match dict_get d key with JObj _ => a | _ => b end = b)
      by (intros; destruct (dict_get d key); try discriminate; reflexivity).
    destruct (dict_get d "data") as [ | | | | | | data_field] eqn:Hdata;
      try (destruct (dict_get d key); try discriminate; reflexivity).
    rewrite has_mapping_spec. cbn [rbind].
    destruct (is_mapping (dict_get data_field key)) eqn:Hn.
    + destruct (copy_item_guarded _ _ Hn) as [o [-> ->]].
      destruct (dict_get d key); try discriminate; reflexivity.
    + destruct (dict_get d key); try discriminate;
        destruct (dict_get data_field key); try discriminate; reflexivity.
Qed.

(** C8: [_parse_item] raises the "unexpected response format" error on
    every value that is not an object, whatever the key, and on objects
    it always returns an item. *)
Theorem parse_item_fails_iff_not_object (data : json) (key : string) :
  match data with
  | JObj _ => exists item, _parse_item data key = Ok item
  | _ => _parse_item data key = Raise unexpected_format
  end.
Proof.
  destruct data; try reflexivity.
  rewrite _parse_item_object. eexists; reflexivity.
Qed.

(** C10: when [data] holds an array and neither the collection key nor
    [items] holds one at the top level, the page has no items. *)
Theorem data_array_is_not_a_container (d : dict) (collection_name : string) :
  is_list (dict_get d "data") = true ->
  is_list (dict_get d collection_name) = false ->
  is_list (dict_get d "items") = false ->
  container d = d
  /\ exists cur, _parse_paginated (JObj d) collection_name = Ok (mkPage [] cur).
Proof.
  intros Hdata Hk Hi.
  assert (Hc : container d = d).
  { unfold container. destruct (dict_get d "data"); try discriminate; reflexivity. }
  split; [exact Hc | ].
  rewrite _parse_paginated_object, Hc. eexists. unfold chosen_items.
  destruct (dict_get d collection_name); try discriminate;
    destruct (dict_get d "items"); try discriminate; reflexivity.
Qed.

Lemma data_array_is_not_a_container_witness :
  let d := [("data", JArr [JObj [("id", JStr "d1")]]); ("cursor", JStr "n")] in
  container d = d
  /\ exists cur, _parse_paginated (JObj d) "decks" = Ok (mkPage [] cur).
Proof.
  apply (data_array_is_not_a_container
           [("data", JArr [JObj [("id", JStr "d1")]]); ("cursor", JStr "n")]
           "decks"); reflexivity.
Defined.

(** * Properties of the gateway *)

Lemma str_of_int_nonempty (z : Z) : str_nonempty (str_of_int z) = true.
Proof.
  unfold str_of_int.
  destruct (Z.to_int z) as [d | d]; cbn; [destruct d | ]; reflexivity.
Qed.

Lemma str_of_bool_nonempty (b : bool) : str_nonempty (str_of_bool b) = true.
Proof. destruct b; reflexivity. Qed.

Section GatewayFacts.

Context {R : Runtime}.

(** An identifier, when there is one, is never the empty string. *)
Lemma first_identifier_nonempty (deck : dict) (keys : list string) (i : string) :
  first_identifier deck keys = Some i -> str_nonempty i = true.
Proof.
  induction keys as [ | key rest IH]; cbn [first_identifier]; [discriminate | ].
  destruct (dict_get deck key) as [ | b | z | f | s | l | o]; try exact IH.
  - intros [= <-]. apply str_of_bool_nonempty.
  - intros [= <-]. apply str_of_int_nonempty.
  - destruct (str_nonempty s) eqn:Hs; [ | exact IH].
    intros [= <-]. exact Hs.
Qed.

Lemma _deck_to_resource_identified (deck : dict) (i : string) :
  _deck_identifier deck = Some i ->
  opt_truthy (_deck_identifier deck) = true
  /\ _deck_to_resource deck = Ok (build_resource deck i).
Proof.
  intros H. unfold _deck_to_resource. rewrite H. cbn [opt_truthy].
  rewrite (first_identifier_nonempty _ _ _ H). split; reflexivity.
Qed.

(** The [for] loop of lines 56-58 never raises: [_deck_to_resource] is
    called on identified decks only. *)
Lemma append_decks_spec (decks : list dict) :
  forall acc, append_decks acc decks = Ok (acc ++ deck_resources decks)%list.
Proof.
  induction decks as [ | deck rest IH]; intros acc; cbn [append_decks deck_resources flat_map].
  - rewrite app_nil_r. reflexivity.
  - destruct (_deck_identifier deck) as [i | ] eqn:Hi.
    + destruct (_deck_to_resource_identified _ _ Hi) as [Ht Hr].
      rewrite Hi in Ht. rewrite Ht, Hr. cbn [rbind].
      rewrite IH. fold (deck_resources rest).
      rewrite <- app_assoc. reflexivity.
    + cbn [opt_truthy]. rewrite IH. reflexivity.
Qed.

(** [_request] sends exactly one request, whatever the outcome. *)
Lemma _request_sends_one (method path : string) (params json_body : option dict)
  (w : world) :
  sent (snd (_request method path params json_body w))
  = (sent w ++ [mkRequest method path params json_body])%list.
Proof.
  unfold _request.
  destruct (transport _ (upstream w)) as [[msg | response] u']; cbn.
  - reflexivity.
  - destruct (400 <=? status_code response); reflexivity.
Qed.

(** A step that only computes leaves the world alone. *)
Lemma bind_lift_world {A B : Type} (r : result A) (k : A -> result B) (w : world) :
  snd (bind (lift r) (fun a => lift (k a)) w) = w.
Proof. unfold bind, lift. destruct r; reflexivity. Qed.

(** One page costs one request. *)
Lemma list_decks_sends_one (cursor : option string) (limit : option json)
  (w : world) :
  exists rq, sent (snd (list_decks cursor limit w)) = (sent w ++ [rq])%list
             /\ rq_method rq = "GET" /\ rq_path rq = "/decks".
Proof.
  exists (mkRequest "GET" "/decks"
            (Some (set_if_int (set_if_str [] "cursor" cursor) "limit" limit)) None).
  split; [ | split; reflexivity].
  unfold list_decks. unfold bind at 1.
  pose proof (_request_sends_one "GET" "/decks"
                (Some (set_if_int (set_if_str [] "cursor" cursor) "limit" limit))
                None w) as H.
  destruct (_request _ _ _ _ w) as [[response | e] w1]; cbn [snd] in *.
  - rewrite bind_lift_world. exact H.
  - exact H.
Qed.

(** One iteration of the [while] loop. *)
Lemma loop_step (fuel : nat) (acc : list Resource) (cursor : option string)
  (w : world) :
  list_resources_loop (S fuel) acc cursor w =
  match list_decks cursor (Some (JInt 200)) w with
  | (Raise e, w1) => Some (Raise e, w1)
  | (Ok page, w1) =>
      let acc' := (acc ++ deck_resources (items page))%list in
      if negb (opt_truthy (next_cursor page))
         || (_MAX_DECK_RESOURCES <=? List.length acc')%nat
      then Some (Ok acc', w1)
      else list_resources_loop fuel acc' (next_cursor page) w1
  end.
Proof.
  cbn [list_resources_loop].
  destruct (list_decks cursor (Some (JInt 200)) w) as [[page | e] w1];
    [ | reflexivity].
  rewrite append_decks_spec. reflexivity.
Qed.

Lemma run_from_advance (s s' : loop_state) :
  advance s s' -> forall k, run_from (S k) s = run_from k s'.
Proof.
  intros H k. destruct H as [acc cursor w page w1 acc' Hpage Hacc Hcur Hlen].
  cbn [run_from]. rewrite loop_step, Hpage.
  rewrite append_decks_spec in Hacc. injection Hacc as <-.
  cbv zeta. rewrite Hcur.
  apply Nat.leb_gt in Hlen. rewrite Hlen. reflexivity.
Qed.

Lemma run_from_advances (n : nat) (s s' : loop_state) :
  advances n s s' -> forall k, run_from (n + k) s = run_from k s'.
Proof.
  induction 1 as [s | n s1 s2 s3 Hstep _ IH]; intros k.
  - reflexivity.
  - cbn [Nat.add]. rewrite (run_from_advance _ _ Hstep). apply IH.
Qed.

(** The listing, seen from a state the loop has come to. *)
Lemma list_resources_after (n k : nat) (w : world) (s : loop_state) :
  advances n ([], None, w) s ->
  list_resources (n + k) w =
  match run_from k s with
  | Some (Ok resources, w') => Some (Ok (firstn _MAX_DECK_RESOURCES resources), w')
  | Some (Raise e, w') => Some (Raise e, w')
  | None => None
  end.
Proof.
  intros Hadv. unfold list_resources.
  change (list_resources_loop (n + k) [] None w)
    with (run_from (n + k) ([], None, w)).
  rewrite (run_from_advances _ _ _ Hadv). reflexivity.
Qed.

(** More fuel does not change an answer. *)
Lemma loop_fuel_mono (n : nat) :
  forall acc cursor w r,
    list_resources_loop n acc cursor w = Some r ->
    forall m, (n <= m)%nat -> list_resources_loop m acc cursor w = Some r.
Proof.
  induction n as [ | n IH]; intros acc cursor w r Hn m Hm; [discriminate | ].
  destruct m as [ | m]; [lia | ].
  rewrite loop_step in *.
  destruct (list_decks cursor (Some (JInt 200)) w) as [[page | e] w1];
    [ | exact Hn].
  cbv zeta in *.
  destruct (negb (opt_truthy (next_cursor page))
            || (_MAX_DECK_RESOURCES <=? _)%nat); [exact Hn | ].
  apply (IH _ _ _ _ Hn). lia.
Qed.

(** Every state the loop comes back to holds less than the cap. *)
Lemma advances_below_cap (n : nat) (s s' : loop_state) :
  advances n s s' ->
  (accumulated s < _MAX_DECK_RESOURCES)%nat ->
  (accumulated s' < _MAX_DECK_RESOURCES)%nat.
Proof.
  induction 1 as [s | n s1 s2 s3 Hstep _ IH]; intros Hs; [exact Hs | ].
  apply IH. destruct Hstep. cbn [accumulated]. assumption.
Qed.

(** The loop returns as long as every page that announces a successor
    brings at least one entry: 500 such pages fill the catalog. *)
Lemma loop_returns_when_productive :
  (forall cursor w page w1,
      list_decks cursor (Some (JInt 200)) w = (Ok page, w1) ->
      opt_truthy (next_cursor page) = true ->
      deck_resources (items page) <> []) ->
  forall k acc cursor w,
    (_MAX_DECK_RESOURCES - List.length acc <= k)%nat ->
    exists r, list_resources_loop (S k) acc cursor w = Some r.
Proof.
  intros Hprod k.
  induction k as [ | k IH]; intros acc cursor w Hk; rewrite loop_step;
    destruct (list_decks cursor (Some (JInt 200)) w) as [[page | e] w1] eqn:Hpage;
    try (eexists; reflexivity); cbv zeta;
    destruct (opt_truthy (next_cursor page)) eqn:Hcur;
    try (eexists; reflexivity); cbn [negb orb];
    destruct (_MAX_DECK_RESOURCES <=? _)%nat eqn:Hcap;
    try (eexists; reflexivity);
    apply Nat.leb_gt in Hcap; rewrite length_app in Hcap.
  - lia.
  - apply IH. rewrite length_app.
    specialize (Hprod _ _ _ _ Hpage Hcur).
    destruct (deck_resources (items page)); [congruence | cbn [List.length]; lia].
Qed.

(** With such an upstream 501 iterations are enough for the listing. *)
Lemma list_resources_returns_when_productive :
  (forall cursor w page w1,
      list_decks cursor (Some (JInt 200)) w = (Ok page, w1) ->
      opt_truthy (next_cursor page) = true ->
      deck_resources (items page) <> []) ->
  forall w, exists r, list_resources 501 w = Some r.
Proof.
  intros Hprod w.
  destruct (loop_returns_when_productive Hprod 500 [] None w) as [[r w'] Hr].
  - cbn [List.length]. unfold _MAX_DECK_RESOURCES. lia.
  - unfold list_resources. rewrite Hr. destruct r; eexists; reflexivity.
Qed.

(** C2: the catalog never holds more than 500 entries; every state from
    which the loop asks for a page holds less than 500 accumulated
    entries, so no page is requested once the cap is reached; and when
    the page fetched from such a state brings the accumulator to 500 or
    more, the listing returns right after that request with exactly the
    first 500 accumulated entries. *)
Theorem catalog_hard_capped :
  (forall fuel w rs w',
      list_resources fuel w = Some (Ok rs, w') ->
      (List.length rs <= 500)%nat)
  /\ (forall n w s,
         advances n ([], None, w) s -> (accumulated s < 500)%nat)
  /\ (forall n w acc cursor wk page w1,
         advances n ([], None, w) (acc, cursor, wk) ->
         list_decks cursor (Some (JInt 200)) wk = (Ok page, w1) ->
         (500 <= List.length (acc ++ deck_resources (items page)))%nat ->
         forall fuel, (n < fuel)%nat ->
           list_resources fuel w
           = Some (Ok (firstn 500 (acc ++ deck_resources (items page))), w1)
           /\ List.length (firstn 500 (acc ++ deck_resources (items page))) = 500%nat
           /\ exists rq, sent w1 = (sent wk ++ [rq])%list).
Proof.
  split; [ | split].
  - intros fuel w rs w'. unfold list_resources.
    destruct (list_resources_loop fuel [] None w) as [[[acc | e] w1] | ];
      try discriminate.
    intros H.
    assert (Hrs : rs = firstn _MAX_DECK_RESOURCES acc) by congruence.
    rewrite Hrs. apply firstn_le_length.
  - intros n w s H. apply (advances_below_cap _ _ _ H).
    cbn. unfold _MAX_DECK_RESOURCES. lia.
  - intros n w acc cursor wk page w1 Hadv Hpage Hcap fuel Hfuel.
    split; [ | split].
    + replace fuel with (n + S (fuel - S n))%nat by lia.
      rewrite (list_resources_after _ _ _ _ Hadv). cbn [run_from].
      rewrite loop_step, Hpage. cbv zeta.
      apply Nat.leb_le in Hcap. unfold _MAX_DECK_RESOURCES at 1.
      rewrite Hcap, orb_true_r. reflexivity.
    + apply firstn_length_le. exact Hcap.
    + destruct (list_decks_sends_one cursor (Some (JInt 200)) wk)
        as [rq [Hrq _]].
      rewrite Hpage in Hrq. exists rq. exact Hrq.
Qed.

(** C5: when a request of the pagination fails, whatever was accumulated
    before, the listing ends with that error, in the world left by the
    failed request, and returns no catalog. *)
Theorem catalog_aborts_on_upstream_error (n : nat) (w : world)
  (acc : list Resource) (cursor : option string) (wk : world) (e : exn)
  (w' : world) (fuel : nat) :
  advances n ([], None, w) (acc, cursor, wk) ->
  list_decks cursor (Some (JInt 200)) wk = (Raise e, w') ->
  (n < fuel)%nat ->
  list_resources fuel w = Some (Raise e, w').
Proof.
  intros Hadv Hfail Hfuel.
  replace fuel with (n + S (fuel - S n))%nat by lia.
  rewrite (list_resources_after _ _ _ _ Hadv). cbn [run_from].
  rewrite loop_step, Hfail. reflexivity.
Qed.

End GatewayFacts.

(** * Scenarios *)

(** The specification's pagination scenario: 200, 200 and 150 identified
    decks come back as exactly 500 entries after three requests. *)
Lemma catalog_hard_capped_witness :
  let R := three_pages in
  let w0 := start (R := R) 0%nat in
  let acc := deck_resources (R := R)
               (items (numbered_page 0 200 None) ++ items (numbered_page 200 200 None)) in
  let all := (acc ++ deck_resources (R := R) (items (numbered_page 400 150 None)))%list in
  List.length all = 550%nat
  /\ list_resources (R := R) 3 w0
     = Some (Ok (firstn 500 all),
             mkWorld (R := R) 3%nat
               [page_request None; page_request (Some "p1"); page_request (Some "p2")])
  /\ List.length (firstn 500 all) = 500%nat.
Proof.
  intros R w0 acc all.
  pose (w1 := mkWorld (R := R) 1%nat [page_request None]).
  pose (w2 := mkWorld (R := R) 2%nat [page_request None; page_request (Some "p1")]).
  pose (w3 := mkWorld (R := R) 3%nat
                [page_request None; page_request (Some "p1"); page_request (Some "p2")]).
  pose (acc1 := deck_resources (R := R) (items (numbered_page 0 200 None))).
  assert (Hadv : advances (R := R) 2 ([], None, w0) (acc, Some "p2", w2)).
  { apply (advances_S (R := R) 1 _ (acc1, Some "p1", w1)).
    - apply (advance_page (R := R) [] None w0 (numbered_page 0 200 (Some "p1")) w1 acc1).
      + vm_compute. reflexivity.
      + vm_compute. reflexivity.
      + reflexivity.
      + apply Nat.ltb_lt. vm_compute. reflexivity.
    - apply (advances_S (R := R) 0 _ (acc, Some "p2", w2)).
      + apply (advance_page (R := R) acc1 (Some "p1") w1
                 (numbered_page 200 200 (Some "p2")) w2 acc).
        * vm_compute. reflexivity.
        * vm_compute. reflexivity.
        * reflexivity.
        * apply Nat.ltb_lt. vm_compute. reflexivity.
      + apply advances_O. }
  assert (Hpage : list_decks (R := R) (Some "p2") (Some (JInt 200)) w2
                  = (Ok (numbered_page 400 150 None), w3))
    by (vm_compute; reflexivity).
  assert (Hcap : (500 <= List.length
                    (acc ++ deck_resources (R := R)
                              (items (numbered_page 400 150 None))))%nat)
    by (apply Nat.leb_le; vm_compute; reflexivity).
  destruct (catalog_hard_capped (R := R)) as [_ [_ Hexact]].
  destruct (Hexact 2%nat w0 acc (Some "p2") w2 _ w3 Hadv Hpage Hcap 3%nat
                   (Nat.lt_succ_diag_r 2)) as [Hres [Hlen _]].
  split; [vm_compute; reflexivity | ].
  split; [exact Hres | exact Hlen].
Defined.

(** With full pages for ever the loop stops by itself: the third page
    reaches the cap and no fourth request is made. *)
Example full_pages_stop_at_cap :
  match list_resources (R := full_pages) 10 (start (R := full_pages) 0%nat) with
  | Some (Ok rs, w) => List.length rs = 500%nat /\ List.length (sent w) = 3%nat
  | _ => False
  end.
Proof. vm_compute. split; reflexivity. Qed.

(** The specification's failure scenario: the first page brings 200
    entries, the second request is answered with status 500, and the
    listing ends with that error. *)
Lemma catalog_aborts_on_upstream_error_witness :
  let R := second_page_fails in
  list_resources (R := R) 2 (start (R := R) 0%nat)
  = Some (Raise (MochiAPIError "Mochi API error 500: boom"),
          mkWorld (R := R) 2%nat [page_request None; page_request (Some "p1")]).
Proof.
  intros R.
  pose (w1 := mkWorld (R := R) 1%nat [page_request None]).
  pose (acc1 := deck_resources (R := R) (items (numbered_page 0 200 None))).
  apply (catalog_aborts_on_upstream_error (R := R) 1 _ acc1 (Some "p1") w1).
  - apply (advances_S (R := R) 0 _ (acc1, Some "p1", w1)).
    + apply (advance_page (R := R) [] None _ (numbered_page 0 200 (Some "p1")) w1 acc1).
      * vm_compute. reflexivity.
      * vm_compute. reflexivity.
      * reflexivity.
      * apply Nat.ltb_lt. vm_compute. reflexivity.
    + apply advances_O.
  - vm_compute. reflexivity.
  - apply Nat.lt_succ_diag_r.
Defined.

(** What [anonymous_pages] answers, whatever was asked before. *)
Lemma anonymous_page (cursor : option string) (w : world (R := anonymous_pages)) :
  list_decks (R := anonymous_pages) cursor (Some (JInt 200)) w
  = (Ok (mkPage [[("name", JStr "untitled")]] (Some "more")),
     mkWorld (R := anonymous_pages) (S (upstream w))
             (sent w ++ [page_request cursor])).
Proof. reflexivity. Qed.

Lemma anonymous_pages_advance (cursor : option string)
  (w : world (R := anonymous_pages)) :
  advance (R := anonymous_pages) ([], cursor, w)
    ([], Some "more",
     mkWorld (R := anonymous_pages) (S (upstream w))
             (sent w ++ [page_request cursor])).
Proof.
  apply (advance_page (R := anonymous_pages) [] cursor w
           (mkPage [[("name", JStr "untitled")]] (Some "more"))).
  - apply anonymous_page.
  - reflexivity.
  - reflexivity.
  - unfold _MAX_DECK_RESOURCES. cbn. lia.
Qed.

Lemma anonymous_pages_advances (n : nat) :
  forall cursor (w : world (R := anonymous_pages)),
  exists cursor' w',
    advances (R := anonymous_pages) n ([], cursor, w) ([], cursor', w')
    /\ List.length (sent w') = (List.length (sent w) + n)%nat.
Proof.
  induction n as [ | n IH]; intros cursor w.
  - exists cursor, w. split; [apply advances_O | lia].
  - destruct (IH (Some "more")
                 (mkWorld (R := anonymous_pages) (S (upstream w))
                          (sent w ++ [page_request cursor])))
      as [cursor' [w' [Hadv Hlen]]].
    exists cursor', w'. split.
    + eapply advances_S; [apply anonymous_pages_advance | exact Hadv].
    + rewrite Hlen. cbn [sent]. rewrite length_app. cbn [List.length]. lia.
Qed.

(** C3 fails on the code: against an upstream whose every page carries a
    cursor and only decks without identifier, the loop goes round [n]
    times for every [n], sending [n] requests and accumulating nothing,
    and the listing returns with no amount of fuel. *)
Theorem catalog_loop_runs_forever_on_anonymous_pages (n : nat) :
  let R := anonymous_pages in
  (exists cursor w,
      advances (R := R) n ([], None, start (R := R) 0%nat) ([], cursor, w)
      /\ List.length (sent w) = n)
  /\ list_resources (R := R) n (start (R := R) 0%nat) = None.
Proof.
  intros R. split.
  - destruct (anonymous_pages_advances n None (start (R := R) 0%nat))
      as [cursor [w [Hadv Hlen]]].
    exists cursor, w. split; [exact Hadv | exact Hlen].
  - destruct (anonymous_pages_advances n None (start (R := R) 0%nat))
      as [cursor [w [Hadv _]]].
    rewrite <- (Nat.add_0_r n) at 1.
    rewrite (list_resources_after _ _ _ _ Hadv). reflexivity.
Qed.

(** * Properties of [call_tool] *)

Section ToolFacts.

Context {R : Runtime}.

(** [call_tool] on a tool whose first required string is refused. *)
Lemma require_str_refused (arguments : dict) (field : string) :
  refused_str (dict_get arguments field) = true ->
  exists msg, _require_str arguments field = Raise (ValueError msg).
Proof.
  unfold _require_str.
  destruct (dict_get arguments field) as [ | b | z | f | s | l | o];
    try discriminate; try (eexists; reflexivity).
  destruct s; [eexists; reflexivity | discriminate].
Qed.

Lemma require_str_accepted (arguments : dict) (field : string) :
  refused_str (dict_get arguments field) = false ->
  exists s, _require_str arguments field = Ok s.
Proof.
  unfold _require_str.
  destruct (dict_get arguments field) as [ | b | z | f | s | l | o];
    try discriminate; try (eexists; reflexivity).
  destruct s; [discriminate | eexists; reflexivity].
Qed.

Lemma require_mapping_refused (arguments : dict) (field : string) :
  is_mapping (dict_get arguments field) = false ->
  exists msg, _require_mapping arguments field = Raise (ValueError msg).
Proof.
  unfold _require_mapping.
  destruct (dict_get arguments field); try discriminate; eexists; reflexivity.
Qed.

(** A handler that starts by requiring a string stops there when the
    string is refused. *)
Lemma bind_require_str_refused {A : Type} (arguments : dict) (field : string)
  (k : string -> IO A) (w : world) :
  refused_str (dict_get arguments field) = true ->
  exists msg,
    bind (lift (_require_str arguments field)) k w = (Raise (ValueError msg), w).
Proof.
  intros H. destruct (require_str_refused _ _ H) as [msg Hmsg].
  exists msg. unfold bind, lift. rewrite Hmsg. reflexivity.
Qed.

(** A handler that requires a string and then an object stops at the
    first of the two that is refused. *)
Lemma bind_require_both_refused {A : Type} (arguments : dict)
  (field1 field2 : string) (k : string -> dict -> IO A) (w : world) :
  refused_str (dict_get arguments field1)
  || negb (is_mapping (dict_get arguments field2)) = true ->
  exists msg,
    bind (lift (_require_str arguments field1))
         (fun s => bind (lift (_require_mapping arguments field2)) (k s)) w
    = (Raise (ValueError msg), w).
Proof.
  intros H.
  destruct (refused_str (dict_get arguments field1)) eqn:H1.
  - apply bind_require_str_refused. exact H1.
  - destruct (require_str_accepted _ _ H1) as [s Hs].
    cbn [orb] in H. apply negb_true_iff in H.
    destruct (require_mapping_refused _ _ H) as [msg Hmsg].
    exists msg. unfold bind, lift. rewrite Hs, Hmsg. reflexivity.
Qed.

(** C6: in read-only mode each of the six write tools is refused as an
    unknown tool, in the world the call started in: nothing was sent. *)
Theorem read_only_refuses_write_tools :
  Forall (fun tool_name =>
            forall arguments w,
              call_tool true tool_name arguments w
              = (Raise (unknown_tool tool_name), w))
         write_tools.
Proof. repeat constructor. Qed.

(** C4, amended: when a tool served in the current mode is called with
    a required string field that [_require_str] refuses (missing, null,
    empty, or neither a string nor an integer) or a required object
    field that is not an object, [call_tool] raises [ValueError] in the
    world the call started in: nothing was sent. *)
Theorem invalid_arguments_raise_before_any_request (read_only : bool)
  (tool_name : string) (arguments : dict) (w : world) :
  is_tool read_only tool_name = true ->
  rejected tool_name arguments = true ->
  exists msg,
    call_tool read_only tool_name arguments w = (Raise (ValueError msg), w).
Proof.
  intros Htool Hrej.
  unfold is_tool, mem, read_tools, write_tools in Htool.
  cbn [existsb] in Htool.
  repeat (apply orb_prop in Htool; destruct Htool as [Htool | Htool]);
    try discriminate;
    try (apply andb_prop in Htool; destruct Htool as [Hmode Htool];
         apply negb_true_iff in Hmode; subst read_only;
         repeat (apply orb_prop in Htool; destruct Htool as [Htool | Htool]));
    try discriminate;
    apply String.eqb_eq in Htool; subst tool_name;
    unfold rejected, required_str, required_mapping, mem in Hrej;
    cbn in Hrej; try discriminate Hrej;
    rewrite ?orb_false_r in Hrej.
  - (* get_deck *)
    destruct read_only; apply bind_require_str_refused; exact Hrej.
  - (* get_note *)
    destruct read_only; apply bind_require_str_refused; exact Hrej.
  - (* create_deck *)
    apply bind_require_str_refused; exact Hrej.
  - (* update_deck *)
    apply (bind_require_both_refused arguments "deck_id" "fields"). exact Hrej.
  - (* delete_deck *)
    apply bind_require_str_refused; exact Hrej.
  - (* create_note *)
    apply (bind_require_both_refused arguments "deck_id" "fields"). exact Hrej.
  - (* update_note *)
    apply (bind_require_both_refused arguments "note_id" "fields"). exact Hrej.
  - (* delete_note *)
    apply bind_require_str_refused; exact Hrej.
Qed.

End ToolFacts.

Lemma invalid_arguments_raise_before_any_request_witness :
  let R := one_deck in
  let arguments := [("deck_id", JStr "d1"); ("fields", JStr "front and back")] in
  exists msg,
    call_tool (R := R) false "create_note" arguments (start (R := R) 0%nat)
    = (Raise (ValueError msg), start (R := R) 0%nat).
Proof.
  intros R arguments.
  apply (invalid_arguments_raise_before_any_request (R := R)
           false "create_note" arguments); reflexivity.
Defined.

(** C4, as stated, fails: [get_deck] called with the number 42 as
    [deck_id], which is not a string, raises nothing and sends
    [GET /decks/42]. *)
Lemma integer_deck_id_is_forwarded :
  let R := one_deck in
  let arguments := [("deck_id", JInt 42)] in
  is_str (dict_get arguments "deck_id") = false
  /\ call_tool (R := R) true "get_deck" arguments (start (R := R) 0%nat)
     = (Ok [("deck", JObj [("id", JStr "42")])],
        mkWorld (R := R) 1%nat [mkRequest "GET" "/decks/42" None None]).
Proof. split; reflexivity. Qed.

(** * Identity of the item returned by [_parse_item] *)

Module StoreFacts.

Import Store.

Lemma lookup_bound (h : heap) (l : loc) (o : object) :
  lookup h l = Some o -> (l < List.length h)%nat.
Proof.
  unfold lookup. intros H. apply nth_error_Some. rewrite H. discriminate.
Qed.

(** Allocation leaves every existing object where it is. *)
Lemma lookup_alloc_old (h : heap) (o' : object) (l : loc) (o : object) :
  lookup h l = Some o -> lookup (snd (alloc h o')) l = Some o.
Proof.
  intros H. unfold alloc, lookup in *. cbn [snd].
  rewrite nth_error_app1; [exact H | ].
  apply nth_error_Some. rewrite H. discriminate.
Qed.

Lemma lookup_alloc_new (h : heap) (o : object) :
  lookup (snd (alloc h o)) (fst (alloc h o)) = Some o.
Proof.
  unfold alloc, lookup. cbn [fst snd].
  rewrite nth_error_app2, Nat.sub_diag; [reflexivity | lia].
Qed.

Lemma lookup_store_other (h : heap) :
  forall l l' o, l <> l' -> lookup (store h l o) l' = lookup h l'.
Proof.
  unfold lookup.
  induction h as [ | o0 h IH]; intros l l' o Hne; [reflexivity | ].
  destruct l as [ | l]; destruct l' as [ | l']; cbn [store nth_error];
    try reflexivity; [congruence | ].
  apply IH. congruence.
Qed.

Lemma lookup_store_same (h : heap) :
  forall l o, (l < List.length h)%nat -> lookup (store h l o) l = Some o.
Proof.
  unfold lookup.
  induction h as [ | o0 h IH]; intros l o Hl; cbn [List.length] in Hl; [lia | ].
  destruct l as [ | l]; cbn [store nth_error]; [reflexivity | ].
  apply IH. lia.
Qed.

Lemma py_dict_mapping (h : heap) (v : value) (d : list (string * value)) :
  as_mapping h v = Some d ->
  py_dict h v = (Ok (List.length h), (h ++ [ODict d])%list).
Proof. intros H. unfold py_dict. rewrite H. reflexivity. Qed.

(** C9: on an object that binds [K] to an object [O], [_parse_item]
    allocates a new object with the bindings of [O].  The result is not
    [O]; it holds what [O] holds; the allocation changes no object that
    was there; and whatever is later written into the result, by item
    assignment or otherwise, [O] holds what it held. *)
Theorem parse_item_returns_fresh_copy (h : heap) (raw : value) (K : string)
  (d : list (string * value)) (lO : loc) (dO : list (string * value)) :
  as_mapping h raw = Some d ->
  find d K = Some (VRef lO) ->
  lookup h lO = Some (ODict dO) ->
  exists l h',
    _parse_item h raw K = (Ok l, h')
    /\ l <> lO
    /\ lookup h' l = Some (ODict dO)
    /\ (forall l0 o, lookup h l0 = Some o -> lookup h' l0 = Some o)
    /\ (forall o', lookup (store h' l o') lO = Some (ODict dO)
                   /\ lookup (store h' l o') l = Some o')
    /\ (forall k v,
           lookup (setitem h' l k v) lO = Some (ODict dO)
           /\ lookup (setitem h' l k v) l = Some (ODict (set dO k v))).
Proof.
  intros Hraw HK HO.
  assert (HmO : as_mapping h (VRef lO) = Some dO)
    by (unfold as_mapping; rewrite HO; reflexivity).
  assert (Hrun : _parse_item h raw K
                 = (Ok (List.length h), (h ++ [ODict dO])%list)).
  { unfold _parse_item, has_mapping, copy_item, item.
    rewrite Hraw, HK, HmO. apply py_dict_mapping. exact HmO. }
  pose proof (lookup_bound _ _ _ HO) as Hbound.
  pose proof (lookup_alloc_new h (ODict dO)) as Hnew.
  pose proof (lookup_alloc_old h (ODict dO) _ _ HO) as Hold.
  unfold alloc in Hnew, Hold. cbn [fst snd] in Hnew, Hold.
  assert (Hne : List.length h <> lO) by lia.
  assert (Hlen : (List.length h < List.length (h ++ [ODict dO]))%nat)
    by (rewrite length_app; cbn [List.length]; lia).
  exists (List.length h), (h ++ [ODict dO])%list.
  split; [exact Hrun | ].
  split; [exact Hne | ].
  split; [exact Hnew | ].
  split; [intros l0 o Hl0; apply (lookup_alloc_old h (ODict dO) _ _ Hl0) | ].
  split.
  - intros o'. split.
    + rewrite lookup_store_other; [exact Hold | exact Hne].
    + apply lookup_store_same. exact Hlen.
  - intros k v. unfold setitem. rewrite Hnew. split.
    + rewrite lookup_store_other; [exact Hold | exact Hne].
    + apply lookup_store_same. exact Hlen.
Qed.

(** The specification's shape [{K: O}], with [O] at location 0 and the
    response at location 1. *)
Lemma parse_item_returns_fresh_copy_witness :
  let O := ODict [("id", VStr "n1"); ("front", VStr "x")] in
  let h := [O; ODict [("note", VRef 0%nat)]] in
  exists l h',
    _parse_item h (VRef 1%nat) "note" = (Ok l, h')
    /\ l <> 0%nat
    /\ lookup h' l = Some O
    /\ (forall l0 o, lookup h l0 = Some o -> lookup h' l0 = Some o)
    /\ (forall o', lookup (store h' l o') 0%nat = Some O
                   /\ lookup (store h' l o') l = Some o')
    /\ (forall k v,
           lookup (setitem h' l k v) 0%nat = Some O
           /\ lookup (setitem h' l k v) l
              = Some (ODict (set [("id", VStr "n1"); ("front", VStr "x")] k v))).
Proof.
  intros O h.
  apply (parse_item_returns_fresh_copy h (VRef 1%nat) "note"
           [("note", VRef 0%nat)] 0%nat
           [("id", VStr "n1"); ("front", VStr "x")]); reflexivity.
Defined.

(** ** The store model and the value model agree *)

Lemma traverse_weaken {A B : Type} (f g : A -> option B) (l : list A) :
  forall r,
    (forall x, In x l -> forall y, f x = Some y -> g x = Some y) ->
    traverse f l = Some r -> traverse g l = Some r.
Proof.
  induction l as [ | x l IH]; intros r Hfg; cbn [traverse]; [trivial | ].
  destruct (f x) as [y | ] eqn:Hx; [ | discriminate].
  destruct (traverse f l) as [r' | ] eqn:Hl; [ | discriminate].
  intros [= <-].
  rewrite (Hfg x (or_introl eq_refl) y Hx).
  rewrite (IH r' (fun x' Hin => Hfg x' (or_intror Hin)) eq_refl).
  reflexivity.
Qed.

(** Reading back is stable under more depth and under allocation. *)
Lemma reify_stable (n : nat) :
  forall h v j,
    reify n h v = Some j ->
    forall m ext, (n <= m)%nat -> reify m (h ++ ext)%list v = Some j.
Proof.
  induction n as [ | n IH]; intros h v j Hv m ext Hm;
    destruct v as [ | b | z | f | s | l];
    try (destruct m; exact Hv); [discriminate | ].
  destruct m as [ | m]; [lia | ].
  cbn [reify] in *. unfold lookup in *.
  destruct (nth_error h l) as [o | ] eqn:Hl; [ | discriminate].
  rewrite nth_error_app1
    by (apply nth_error_Some; rewrite Hl; discriminate).
  rewrite Hl.
  destruct o as [d | vs].
  - destruct (traverse _ d) as [dj | ] eqn:Hd; [ | discriminate].
    erewrite traverse_weaken; [exact Hv | | exact Hd].
    intros [k v] _ y. cbn [fst snd].
    destruct (reify n h v) as [jv | ] eqn:Hjv; [ | discriminate].
    rewrite (IH _ _ _ Hjv m ext) by lia. trivial.
  - destruct (traverse _ vs) as [js | ] eqn:Hvs; [ | discriminate].
    erewrite traverse_weaken; [exact Hv | | exact Hvs].
    intros v _ y Hy. apply IH; [exact Hy | lia].
Qed.

(** The members of a stored object read back as the members of its tree. *)
Lemma traverse_get (f : value -> option json) (d : list (string * value)) :
  forall dj,
    f VNone = Some JNull ->
    traverse (fun kv => option_map (pair (fst kv)) (f (snd kv))) d = Some dj ->
    forall k, f (get d k) = Some (dict_get dj k)
              /\ (find d k = None -> dict_find dj k = None).
Proof.
  unfold get, dict_get.
  induction d as [ | [k' v] d IH]; intros dj Hnone; cbn [traverse fst snd].
  - intros [= <-] k. cbn. split; [exact Hnone | trivial].
  - destruct (f v) as [jv | ] eqn:Hv; cbn [option_map]; [ | discriminate].
    destruct (traverse _ d) as [r | ] eqn:Hd; [ | discriminate].
    intros [= <-] k. cbn [find dict_find].
    destruct (String.eqb k' k).
    + split; [exact Hv | discriminate].
    + apply (IH r Hnone eq_refl).
Qed.

Lemma reify_mapping_inv (n : nat) (h : heap) (v : value)
  (d : list (string * value)) (j : json) :
  as_mapping h v = Some d ->
  reify n h v = Some j ->
  exists n' dj,
    n = S n' /\ j = JObj dj
    /\ traverse (fun kv => option_map (pair (fst kv)) (reify n' h (snd kv))) d
       = Some dj.
Proof.
  unfold as_mapping. destruct v as [ | | | | | l]; try discriminate.
  destruct (lookup h l) as [[d' | vs] | ] eqn:Hl; try discriminate.
  intros [= <-]. destruct n as [ | n']; [discriminate | ].
  cbn [reify]. rewrite Hl.
  destruct (traverse _ d') as [dj | ] eqn:Hd; [ | discriminate].
  intros [= <-]. exists n', dj. split; [reflexivity | ].
  split; [reflexivity | exact Hd].
Qed.

Lemma reify_not_mapping (n : nat) (h : heap) (v : value) (j : json) :
  as_mapping h v = None ->
  reify n h v = Some j ->
  is_mapping j = false.
Proof.
  unfold as_mapping.
  destruct v as [ | | | | | l]; try (destruct n; intros _ [= <-]; reflexivity).
  destruct n as [ | n']; [discriminate | ]. cbn [reify].
  destruct (lookup h l) as [[d' | vs] | ]; try discriminate.
  intros _. destruct (traverse _ vs); [ | discriminate].
  intros [= <-]. reflexivity.
Qed.

Lemma reify_none (n : nat) (h : heap) : reify n h VNone = Some JNull.
Proof. destruct n; reflexivity. Qed.

(** [dict(v)] on a stored mapping: the copy reads back as the same tree. *)
Lemma reify_copy (n : nat) (h : heap) (v : value) (d : list (string * value))
  (j : json) :
  as_mapping h v = Some d ->
  reify n h v = Some j ->
  exists dj,
    j = JObj dj
    /\ py_dict h v = (Ok (List.length h), (h ++ [ODict d])%list)
    /\ forall m, (n <= m)%nat ->
         reify m (h ++ [ODict d])%list (VRef (List.length h)) = Some (JObj dj).
Proof.
  intros Hm Hv.
  destruct (reify_mapping_inv _ _ _ _ _ Hm Hv) as [n' [dj [-> [-> Hd]]]].
  exists dj. split; [reflexivity | ].
  split; [apply py_dict_mapping; exact Hm | ].
  intros m Hle. destruct m as [ | m]; [lia | ].
  cbn [reify].
  pose proof (lookup_alloc_new h (ODict d)) as Hnew.
  unfold alloc in Hnew. cbn [fst snd] in Hnew. rewrite Hnew.
  erewrite traverse_weaken; [reflexivity | | exact Hd].
  intros [k x] _ y. cbn [fst snd].
  destruct (reify n' h x) as [jx | ] eqn:Hx; [ | discriminate].
  rewrite (reify_stable _ _ _ _ Hx m [ODict d]) by lia. trivial.
Qed.

(** The guard [key in d and isinstance(d[key], Mapping)] and the copy
    behind it, in terms of [d.get(key)]. *)
Lemma has_mapping_get (h : heap) (d : list (string * value)) (key : string) :
  has_mapping h d key
  = match as_mapping h (get d key) with Some _ => true | None => false end.
Proof. unfold has_mapping, get. destruct (find d key); reflexivity. Qed.

Lemma copy_item_get (h : heap) (d : list (string * value)) (key : string) :
  has_mapping h d key = true -> copy_item h d key = py_dict h (get d key).
Proof.
  unfold has_mapping, copy_item, item, get.
  destruct (find d key); [reflexivity | discriminate].
Qed.

End StoreFacts.

Lemma match_not_mapping {T : Type} (v : json) (f : dict -> T) (x : T) :
  is_mapping v = false ->
  match v with JObj o => f o | _ => x end = x.
Proof. destruct v; try reflexivity. discriminate. Qed.

(** [Store._parse_item] refines [_parse_item]: on a stored value that
    reads back as the tree [j], it fails exactly as [_parse_item j key]
    does, and otherwise returns a new object that reads back as the item
    [_parse_item j key] returns. *)
Theorem store_parse_item_refines (n : nat) (h : Store.heap) (v : Store.value)
  (j : json) (key : string) :
  Store.reify n h v = Some j ->
  match _parse_item j key with
  | Ok found =>
      exists l h',
        Store._parse_item h v key = (Ok l, h')
        /\ Store.reify n h' (Store.VRef l) = Some (JObj found)
  | Raise e => Store._parse_item h v key = (Raise e, h)
  end.
Proof.
  intros Hv. unfold Store._parse_item.
  destruct (Store.as_mapping h v) as [d | ] eqn:Hm.
  - destruct (StoreFacts.reify_mapping_inv _ _ _ _ _ Hm Hv)
      as [n' [dj [Hn [Hj Hd]]]].
    subst n j. rewrite _parse_item_object.
    pose proof (StoreFacts.traverse_get (Store.reify n' h) d dj
                  (StoreFacts.reify_none n' h) Hd) as Hget.
    destruct (Hget key) as [Hk _]. destruct (Hget "data") as [Hdata _].
    rewrite StoreFacts.has_mapping_get.
    destruct (Store.as_mapping h (Store.get d key)) as [dk | ] eqn:Hmk.
    + rewrite StoreFacts.copy_item_get
        by (rewrite StoreFacts.has_mapping_get, Hmk; reflexivity).
      destruct (StoreFacts.reify_copy _ _ _ _ _ Hmk Hk) as [djk [Hjk [Hcopy Hre]]].
      rewrite Hjk. eexists. eexists. split; [exact Hcopy | ].
      apply Hre. lia.
    + pose proof (StoreFacts.reify_not_mapping _ _ _ _ Hmk Hk) as Hnk.
      rewrite (match_not_mapping _ (fun o => o) _ Hnk).
      cbv zeta.
      destruct (Store.as_mapping h (Store.get d "data")) as [inner | ] eqn:Hmd.
      * destruct (StoreFacts.reify_mapping_inv _ _ _ _ _ Hmd Hdata)
          as [n'' [dinner [Hn [Hjd Hinner]]]].
        subst n'. rewrite Hjd in *.
        pose proof (StoreFacts.traverse_get (Store.reify n'' h) inner dinner
                      (StoreFacts.reify_none n'' h) Hinner) as Hgeti.
        destruct (Hgeti key) as [Hik _].
        rewrite StoreFacts.has_mapping_get.
        destruct (Store.as_mapping h (Store.get inner key)) as [dkk | ] eqn:Hmkk.
        -- rewrite StoreFacts.copy_item_get
             by (rewrite StoreFacts.has_mapping_get, Hmkk; reflexivity).
           destruct (StoreFacts.reify_copy _ _ _ _ _ Hmkk Hik)
             as [djkk [Hjkk [Hcopy Hre]]].
           rewrite Hjkk. eexists. eexists. split; [exact Hcopy | ].
           apply Hre. lia.
        -- pose proof (StoreFacts.reify_not_mapping _ _ _ _ Hmkk Hik) as Hnkk.
           rewrite (match_not_mapping _ (fun o => o) _ Hnkk).
           destruct (StoreFacts.reify_copy _ _ _ _ _ Hmd Hdata)
             as [dj' [Hj' [Hcopy Hre]]].
           injection Hj' as <-.
           eexists. eexists. split; [exact Hcopy | ].
           apply Hre. lia.
      * pose proof (StoreFacts.reify_not_mapping _ _ _ _ Hmd Hdata) as Hnd.
        rewrite (match_not_mapping _ _ _ Hnd).
        destruct (StoreFacts.reify_copy _ _ _ _ _ Hm Hv) as [dj' [Hj' [Hcopy Hre]]].
        injection Hj' as <-.
        eexists. eexists. split; [exact Hcopy | ].
        apply Hre. lia.
  - pose proof (StoreFacts.reify_not_mapping _ _ _ _ Hm Hv) as Hnm.
    destruct j; try reflexivity. discriminate.
Qed.

(** The value model on the specification's shape: the item is [O]. *)
Example parse_item_nested_note :
  _parse_item (JObj [("note", JObj [("id", JStr "n1"); ("front", JStr "x")])])
              "note"
  = Ok [("id", JStr "n1"); ("front", JStr "x")].
Proof. reflexivity. Qed.

Example parse_item_data_envelope :
  _parse_item (JObj [("data", JObj [("note", JObj [("id", JStr "note-1");
                                                  ("front", JStr "Hello")])])])
              "note"
  = Ok [("id", JStr "note-1"); ("front", JStr "Hello")].
Proof. reflexivity. Qed.

Example parse_paginated_data_envelope :
  _parse_paginated
    (JObj [("data", JObj [("decks", JArr [JObj [("id", JStr "deck-1");
                                                ("name", JStr "My Deck")]]);
                          ("cursor", JStr "next-cursor")])])
    "decks"
  = Ok (mkPage [[("id", JStr "deck-1"); ("name", JStr "My Deck")]]
               (Some "next-cursor")).
Proof. reflexivity. Qed.

(** * Further properties of the normaliser *)

Lemma mappings_filter (l : list json) :
  map JObj (mappings l) = filter is_mapping l.
Proof.
  induction l as [ | v l IH]; [reflexivity | ].
  destruct v; cbn [mappings filter is_mapping map]; rewrite ?IH; reflexivity.
Qed.

Lemma mappings_map_JObj (ds : list dict) : mappings (map JObj ds) = ds.
Proof.
  induction ds as [ | d ds IH]; [reflexivity | ].
  cbn [map mappings]. rewrite IH. reflexivity.
Qed.

(** X1: a top-level array gives the page of its object elements, in
    their order, and no cursor. *)
Theorem array_page_keeps_objects_in_order (l : list json) (collection_name : string) :
  exists its,
    _parse_paginated (JArr l) collection_name = Ok (mkPage its None)
    /\ map JObj its = filter is_mapping l.
Proof.
  exists (mappings l). split; [reflexivity | apply mappings_filter].
Qed.

Lemma nonempty_str_truthy (v : json) (s : string) :
  nonempty_str v = Some s -> str_nonempty s = true.
Proof.
  unfold nonempty_str. destruct v; try discriminate.
  destruct (str_nonempty s0) eqn:H; [ | discriminate].
  intros [= <-]. exact H.
Qed.

Lemma fallback_cursor_truthy (c : dict) (s : string) :
  fallback_cursor c = Some s -> str_nonempty s = true.
Proof.
  unfold fallback_cursor.
  destruct (nonempty_str (dict_get c "nextCursor")) as [s1 | ] eqn:H1.
  - intros [= <-]. apply (nonempty_str_truthy _ _ H1).
  - destruct (truthy (dict_get c "nextCursor")); [discriminate | ].
    apply nonempty_str_truthy.
Qed.

(** X2: whatever the response, the page [_parse_paginated] returns has
    either no cursor or a non-empty one. *)
Theorem page_cursor_never_empty (data : json) (collection_name : string) :
  match _parse_paginated data collection_name with
  | Ok page =>
      match next_cursor page with
      | Some c => str_nonempty c = true
      | None => True
      end
  | Raise _ => False
  end.
Proof.
  destruct data as [ | b | z | f | s | l | d]; try exact I.
  rewrite _parse_paginated_object, page_cursor_fallback. cbn [next_cursor].
  destruct (fallback_cursor (container d)) as [c | ] eqn:Hc; [ | exact I].
  apply (fallback_cursor_truthy _ _ Hc).
Qed.

(** X3: under a [data] object the rest of the response is ignored: the
    page is the one of the envelope alone. *)
Theorem data_envelope_hides_siblings (d inner : dict) (collection_name : string) :
  dict_get d "data" = JObj inner ->
  _parse_paginated (JObj d) collection_name
  = _parse_paginated (JObj [("data", JObj inner)]) collection_name.
Proof.
  intros H. rewrite !_parse_paginated_object.
  unfold container. rewrite H. reflexivity.
Qed.

Lemma data_envelope_hides_siblings_witness :
  _parse_paginated
    (JObj [("decks", JArr [JObj [("id", JStr "outer")]]);
           ("cursor", JStr "outer-cursor");
           ("data", JObj [("decks", JArr [JObj [("id", JStr "inner")]])])])
    "decks"
  = _parse_paginated
      (JObj [("data", JObj [("decks", JArr [JObj [("id", JStr "inner")]])])])
      "decks".
Proof.
  apply (data_envelope_hides_siblings _
           [("decks", JArr [JObj [("id", JStr "inner")]])]).
  reflexivity.
Defined.

Lemma dict_get_cons (k : string) (v : json) (d : dict) (k' : string) :
  dict_get ((k, v) :: d) k' = if String.eqb k k' then v else dict_get d k'.
Proof. unfold dict_get. cbn [dict_find]. destruct (String.eqb k k'); reflexivity. Qed.

(** The tool payload of a page: the items, then the cursor if any. *)
Lemma to_payload_shape (its : list dict) (cur : option string)
  (collection_name : string) :
  String.eqb collection_name "nextCursor" = false ->
  to_payload (mkPage its cur) collection_name
  = (collection_name, JArr (map JObj its))
    :: match cur with
       | Some (String a c) => [("nextCursor", JStr (String a c))]
       | _ => []
       end.
Proof.
  intros Hname. unfold to_payload. cbn [next_cursor items].
  destruct cur as [[ | a c] | ]; cbn [opt_truthy str_nonempty]; try reflexivity.
  cbn [dict_set]. rewrite Hname. reflexivity.
Qed.

Lemma to_payload_parses_back (p : PaginatedResult) (collection_name : string) :
  collection_name <> "nextCursor" ->
  next_cursor p <> Some "" ->
  _parse_paginated (JObj (to_payload p collection_name)) collection_name = Ok p.
Proof.
  intros Hname Hcur. apply String.eqb_neq in Hname.
  destruct p as [its cur]. cbn [next_cursor] in Hcur.
  rewrite _parse_paginated_object, (to_payload_shape _ _ _ Hname).
  set (payload := (collection_name, JArr (map JObj its)) :: _).
  assert (Hc : container payload = payload).
  { unfold container, payload. rewrite dict_get_cons.
    destruct (String.eqb collection_name "data"); [reflexivity | ].
    destruct cur as [[ | a c] | ]; reflexivity. }
  rewrite Hc. unfold chosen_items, page_cursor, py_or, payload.
  rewrite !dict_get_cons, String.eqb_refl, Hname, mappings_map_JObj.
  destruct cur as [[ | a c] | ]; [congruence | reflexivity | ].
  destruct (String.eqb collection_name "cursor"); [ | reflexivity].
  destruct its; reflexivity.
Qed.

Lemma parsed_page_cursor (data : json) (collection_name : string) :
  exists page,
    _parse_paginated data collection_name = Ok page
    /\ next_cursor page <> Some "".
Proof.
  destruct data as [ | b | z | f | s | l | d];
    try (eexists; split; [reflexivity | discriminate]).
  rewrite _parse_paginated_object, page_cursor_fallback.
  eexists. split; [reflexivity | ]. cbn [next_cursor]. intros H.
  apply fallback_cursor_truthy in H. discriminate.
Qed.

(** X4: what [to_payload] writes, [_parse_paginated] reads back: for
    any page whose cursor is absent or non-empty, and so for every page
    [_parse_paginated] itself produces. *)
Theorem payload_round_trip (p : PaginatedResult) (collection_name : string) :
  collection_name <> "nextCursor" ->
  (next_cursor p <> Some "" ->
   _parse_paginated (JObj (to_payload p collection_name)) collection_name = Ok p)
  /\ (forall data,
         exists page,
           _parse_paginated data collection_name = Ok page
           /\ _parse_paginated (JObj (to_payload page collection_name))
                               collection_name
              = Ok page).
Proof.
  intros Hname. split.
  - intros Hcur. apply to_payload_parses_back; assumption.
  - intros data.
    destruct (parsed_page_cursor data collection_name) as [page [Hpage Hcur]].
    exists page. split; [exact Hpage | ].
    apply to_payload_parses_back; assumption.
Qed.

Lemma payload_round_trip_witness :
  let p := mkPage [[("id", JStr "d1")]] (Some "abc") in
  _parse_paginated (JObj (to_payload p "decks")) "decks" = Ok p.
Proof.
  intros p.
  destruct (payload_round_trip p "decks") as [Hback _]; [discriminate | ].
  apply Hback. discriminate.
Defined.

(** X5: the tool payload lists the items under the collection name and
    carries [nextCursor] exactly when the page has a non-empty cursor. *)
Theorem payload_mentions_cursor_iff_any (p : PaginatedResult)
  (collection_name : string) :
  collection_name <> "nextCursor" ->
  dict_get (to_payload p collection_name) collection_name
  = JArr (map JObj (items p))
  /\ dict_has (to_payload p collection_name) "nextCursor"
     = opt_truthy (next_cursor p).
Proof.
  intros Hname. apply String.eqb_neq in Hname.
  destruct p as [its cur]. rewrite (to_payload_shape _ _ _ Hname).
  cbn [items next_cursor]. split.
  - rewrite dict_get_cons, String.eqb_refl. reflexivity.
  - unfold dict_has. cbn [dict_find]. rewrite Hname.
    destruct cur as [[ | a c] | ]; reflexivity.
Qed.

Lemma payload_mentions_cursor_iff_any_witness :
  let p := mkPage [[("id", JStr "d1")]] (Some "") in
  dict_get (to_payload p "decks") "decks" = JArr (map JObj (items p))
  /\ dict_has (to_payload p "decks") "nextCursor" = false.
Proof.
  intros p. apply (payload_mentions_cursor_iff_any p "decks"). discriminate.
Defined.

(** X6: in [_parse_item] an object under the key at the top level wins
    over a [data] envelope; the envelope is used next, with the key
    inside it first; and an object with neither is returned whole. *)
Theorem parse_item_precedence (d : dict) (key : string) :
  (forall o, dict_get d key = JObj o -> _parse_item (JObj d) key = Ok o)
  /\ (forall inner,
         is_mapping (dict_get d key) = false ->
         dict_get d "data" = JObj inner ->
         _parse_item (JObj d) key
         = Ok match dict_get inner key with JObj o => o | _ => inner end)
  /\ (is_mapping (dict_get d key) = false ->
      is_mapping (dict_get d "data") = false ->
      _parse_item (JObj d) key = Ok d).
Proof.
  rewrite _parse_item_object. repeat split.
  - intros o ->. reflexivity.
  - intros inner Hk ->. rewrite (match_not_mapping _ (fun o => o) _ Hk).
    reflexivity.
  - intros Hk Hd. rewrite (match_not_mapping _ (fun o => o) _ Hk).
    rewrite (match_not_mapping _ _ _ Hd). reflexivity.
Qed.

Lemma parse_item_precedence_witness :
  let d := [("data", JObj [("note", JObj [("id", JStr "inner")])]);
            ("note", JObj [("id", JStr "outer")])] in
  _parse_item (JObj d) "note" = Ok [("id", JStr "outer")].
Proof.
  intros d.
  destruct (parse_item_precedence d "note") as [Htop _].
  apply Htop. reflexivity.
Defined.

(** * Upstream errors *)

Lemma starts_with_app (p s : string) : starts_with p (p ++ s) = true.
Proof.
  unfold starts_with.
  induction p as [ | a p IH]; cbn; [destruct s; reflexivity | ].
  destruct (ascii_dec a a); [exact IH | contradiction].
Qed.

Lemma starts_with_self (p : string) : starts_with p p = true.
Proof.
  unfold starts_with.
  induction p as [ | a p IH]; cbn; [reflexivity | ].
  destruct (ascii_dec a a); [exact IH | contradiction].
Qed.

Section ErrorFacts.

Context {R : Runtime}.

Lemma first_message_prefix (status : Z) (data : dict) (keys : list string) :
  starts_with (api_error status) (first_message status data keys) = true.
Proof.
  induction keys as [ | key rest IH]; cbn [first_message].
  - apply starts_with_self.
  - destruct (dict_get data key); try exact IH. apply starts_with_app.
Qed.

(** X7: the message built for an error response always begins with
    "Mochi API error" and the status code, whatever the body. *)
Theorem error_message_names_status (response : http_response) :
  starts_with ("Mochi API error " ++ str_of_int (status_code response))
              (_extract_error_message response) = true.
Proof.
  unfold _extract_error_message.
  destruct (body response) as [[ | | | | | | data] | ];
    try apply starts_with_self;
    try apply starts_with_app.
  apply first_message_prefix.
Qed.

(** X8: the detail of the message is the first of [message], [error]
    and [detail] that holds a string, even an empty one; a field of any
    other type is passed over. *)
Theorem error_message_picks_first_string (status : Z) (data : dict) (txt : string) :
  let response := mkResponse status (Some (JObj data)) txt in
  _extract_error_message response
  = match dict_get data "message", dict_get data "error", dict_get data "detail" with
    | JStr m, _, _ => api_error status ++ ": " ++ m
    | _, JStr e, _ => api_error status ++ ": " ++ e
    | _, _, JStr d => api_error status ++ ": " ++ d
    | _, _, _ => api_error status
    end.
Proof.
  cbn. destruct (dict_get data "message"), (dict_get data "error"),
    (dict_get data "detail"); reflexivity.
Qed.

End ErrorFacts.

(** * How [call_tool] uses the upstream *)

Section HandlerFacts.

Context {R : Runtime}.

Lemma pure_ret {A : Type} (a : A) : pure_io (ret a).
Proof. exists (Ok a). reflexivity. Qed.

Lemma pure_lift {A : Type} (r : result A) : pure_io (lift r).
Proof. exists r. reflexivity. Qed.

Lemma pure_raise {A : Type} (e : exn) : pure_io (raise (A := A) e).
Proof. exists (Raise e). reflexivity. Qed.

Lemma pure_bind {A B : Type} (m : IO A) (k : A -> IO B) :
  pure_io m -> (forall a, pure_io (k a)) -> pure_io (bind m k).
Proof.
  intros [r Hr] Hk. destruct r as [a | e].
  - destruct (Hk a) as [rb Hb]. exists rb. intros w.
    unfold bind. rewrite Hr. apply Hb.
  - exists (Raise e). intros w. unfold bind. rewrite Hr. reflexivity.
Qed.

Lemma bind_assoc {A B C : Type} (m : IO A) (k1 : A -> IO B) (k2 : B -> IO C)
  (w : world) :
  bind (bind m k1) k2 w = bind m (fun a => bind (k1 a) k2) w.
Proof.
  unfold bind. destruct (m w) as [[a | e] w1]; reflexivity.
Qed.

Lemma resend_sends (rq : http_request) (w : world) :
  sent (snd (resend rq w)) = (sent w ++ [rq])%list.
Proof.
  unfold resend. rewrite _request_sends_one. destruct rq. reflexivity.
Qed.

Lemma validates_ext {A : Type} (m m' : IO A) :
  (forall w, m w = m' w) -> validates_then_calls m' -> validates_then_calls m.
Proof.
  intros Heq H w. rewrite Heq. destruct (H w) as [[msg Hm] | [rq Hrq]].
  - left. exists msg. exact Hm.
  - right. exists rq. exact Hrq.
Qed.

(** A validation step in front of a handler. *)
Lemma validates_lift_bind {A B : Type} (r : result A) (k : A -> IO B) :
  (forall e, r = Raise e -> exists msg, e = ValueError msg) ->
  (forall a, r = Ok a -> validates_then_calls (k a)) ->
  validates_then_calls (bind (lift r) k).
Proof.
  intros Hraise Hk w. unfold bind, lift. destruct r as [a | e].
  - apply (Hk a eq_refl).
  - destruct (Hraise e eq_refl) as [msg ->]. left. exists msg. reflexivity.
Qed.

Lemma validates_ret_bind {A B : Type} (a : A) (k : A -> IO B) :
  validates_then_calls (k a) -> validates_then_calls (bind (ret a) k).
Proof. apply validates_ext. reflexivity. Qed.

(** A request followed by computation only. *)
Lemma validates_request_bind {A : Type} (method path : string)
  (params json_body : option dict) (k : http_response -> IO A) :
  (forall response, pure_io (k response)) ->
  validates_then_calls (bind (_request method path params json_body) k).
Proof.
  intros Hk w. right. exists (mkRequest method path params json_body).
  unfold resend, bind. cbn [rq_method rq_path rq_params rq_json].
  destruct (_request method path params json_body w) as [[response | e] w1].
  - destruct (Hk response) as [r Hr]. rewrite Hr. cbn [fst snd].
    split; [reflexivity | intros e He; discriminate He].
  - cbn [fst snd]. split; [reflexivity | intros e0 [= <-]; reflexivity].
Qed.

Lemma _require_str_raises_value_error (arguments : dict) (field : string) (e : exn) :
  _require_str arguments field = Raise e -> exists msg, e = ValueError msg.
Proof.
  unfold _require_str.
  destruct (dict_get arguments field) as [ | b | z | f | s | l | o];
    try discriminate; try (intros [= <-]; eexists; reflexivity).
  destruct (str_nonempty s); [discriminate | ].
  intros [= <-]. eexists; reflexivity.
Qed.

Lemma _require_mapping_raises_value_error (arguments : dict) (field : string)
  (e : exn) :
  _require_mapping arguments field = Raise e -> exists msg, e = ValueError msg.
Proof.
  unfold _require_mapping.
  destruct (dict_get arguments field); try discriminate;
    intros [= <-]; eexists; reflexivity.
Qed.

Lemma _optional_int_raises_value_error (value : json) (e : exn) :
  _optional_int value = Raise e -> exists msg, e = ValueError msg.
Proof.
  unfold _optional_int.
  destruct value as [ | b | z | f | s | l | o]; try discriminate.
  destruct (str_nonempty (py_strip s)); [ | discriminate].
  destruct (py_int s); [discriminate | ].
  intros [= <-]. eexists; reflexivity.
Qed.

End HandlerFacts.

Ltac solve_pure :=
  cbv beta zeta;
  repeat first
    [ apply pure_ret | apply pure_lift | apply pure_raise
    | apply pure_bind; [ | intros ? ]; cbv beta zeta ].

Ltac step_handler :=
  cbv beta zeta;
  first
    [ apply validates_lift_bind;
      [ first [ apply _require_str_raises_value_error
              | apply _require_mapping_raises_value_error
              | apply _optional_int_raises_value_error ]
      | intros ? _ ]
    | apply validates_ret_bind
    | apply validates_request_bind; intros ?; solve_pure
    | eapply validates_ext; [ intros ?; apply bind_assoc | ] ].

Ltac solve_handler := repeat step_handler.

Ltac reduce_tool_choice :=
  cbv beta iota delta [call_tool String.eqb Ascii.eqb Bool.eqb].

Ltac split_advertised H :=
  repeat (apply orb_prop in H; destruct H as [H | H]);
  try discriminate H;
  apply String.eqb_eq in H.

Section ToolEffects.

Context {R : Runtime}.

Lemma call_tool_validates_then_calls (read_only : bool) (tool_name : string)
  (arguments : dict) :
  advertised read_only tool_name = true ->
  validates_then_calls (call_tool read_only tool_name arguments).
Proof.
  intros H. unfold advertised, mem in H.
  destruct read_only; cbn in H; split_advertised H; subst tool_name;
    reduce_tool_choice;
    unfold list_decks, get_deck, list_notes, get_note, do_create_deck,
      create_deck, update_deck, delete_deck, create_note, update_note,
      delete_note;
    solve_handler;
    try (destruct (dict_has arguments "fields"); solve_handler).
Qed.

(** X9: a call of an advertised tool either raises [ValueError] without
    touching the upstream or sends exactly one request. *)
Theorem advertised_tool_sends_at_most_one_request (read_only : bool)
  (tool_name : string) (arguments : dict) (w : world) :
  advertised read_only tool_name = true ->
  (exists msg,
      call_tool read_only tool_name arguments w = (Raise (ValueError msg), w))
  \/ (exists rq,
         sent (snd (call_tool read_only tool_name arguments w))
         = (sent w ++ [rq])%list).
Proof.
  intros H.
  destruct (call_tool_validates_then_calls _ _ arguments H w)
    as [Hleft | [rq [Hw _]]]; [left; exact Hleft | right].
  exists rq. rewrite Hw. apply resend_sends.
Qed.

(** X10: when the request a tool has sent fails, by a transport error or
    an error status, the tool raises that very error. *)
Theorem tool_raises_the_upstream_error (read_only : bool) (tool_name : string)
  (arguments : dict) (w : world) (rq : http_request) (e : exn) :
  advertised read_only tool_name = true ->
  sent (snd (call_tool read_only tool_name arguments w)) = (sent w ++ [rq])%list ->
  fst (resend rq w) = Raise e ->
  fst (call_tool read_only tool_name arguments w) = Raise e.
Proof.
  intros H Hsent Hfail.
  destruct (call_tool_validates_then_calls _ _ arguments H w)
    as [[msg Hleft] | [rq' [Hw Hfwd]]].
  - rewrite Hleft in Hsent. cbn [snd] in Hsent.
    apply (f_equal (@List.length _)) in Hsent.
    rewrite length_app in Hsent. cbn [List.length] in Hsent. lia.
  - rewrite Hw, resend_sends in Hsent.
    apply app_inj_tail in Hsent. destruct Hsent as [_ ->].
    apply Hfwd. exact Hfail.
Qed.

(** X11: a name that [list_tools] does not advertise in the current mode
    is refused as an unknown tool, and nothing is sent. *)
Theorem unadvertised_tool_is_refused (read_only : bool) (tool_name : string)
  (arguments : dict) (w : world) :
  advertised read_only tool_name = false ->
  call_tool read_only tool_name arguments w = (Raise (unknown_tool tool_name), w).
Proof.
  intros H. unfold advertised, mem in H.
  destruct read_only; cbn in H;
    repeat (apply orb_false_elim in H; destruct H as [?H H]);
    unfold call_tool;
    repeat match goal with
           | Hf : String.eqb tool_name _ = false |- _ => rewrite Hf; clear Hf
           end;
    reflexivity.
Qed.

(** X12: the mode only matters for the write tools: on any other name
    [call_tool] behaves the same in both modes. *)
Theorem mode_only_gates_write_tools (tool_name : string) (arguments : dict)
  (w : world) :
  mem tool_name write_tools = false ->
  call_tool true tool_name arguments w = call_tool false tool_name arguments w.
Proof.
  intros H. unfold mem, write_tools in H. cbn [existsb] in H.
  repeat (apply orb_false_elim in H; destruct H as [?H H]).
  unfold call_tool.
  repeat match goal with
         | |- context [if String.eqb tool_name ?s then _ else _] =>
             destruct (String.eqb tool_name s) eqn:?; try reflexivity;
             try congruence
         end.
Qed.

End ToolEffects.

Lemma advertised_tool_sends_at_most_one_request_witness :
  let R := one_deck in
  let w := start (R := R) 0%nat in
  (exists msg,
      call_tool (R := R) true "get_deck" [("deck_id", JStr "d1")] w
      = (Raise (ValueError msg), w))
  \/ (exists rq,
         sent (snd (call_tool (R := R) true "get_deck" [("deck_id", JStr "d1")] w))
         = (sent w ++ [rq])%list).
Proof.
  intros R w.
  apply (advertised_tool_sends_at_most_one_request (R := R) true "get_deck").
  reflexivity.
Defined.

Lemma tool_raises_the_upstream_error_witness :
  let R := second_page_fails in
  let w := mkWorld (R := R) 1%nat [] in
  fst (call_tool (R := R) false "delete_note" [("note_id", JStr "n1")] w)
  = Raise (MochiAPIError "Mochi API error 500: boom").
Proof.
  intros R w.
  apply (tool_raises_the_upstream_error (R := R) false "delete_note"
           [("note_id", JStr "n1")] w
           (mkRequest "DELETE" "/notes/n1" None None)); reflexivity.
Defined.

Lemma unadvertised_tool_is_refused_witness :
  let R := one_deck in
  let w := start (R := R) 0%nat in
  call_tool (R := R) false "drop_everything" [] w
  = (Raise (unknown_tool "drop_everything"), w).
Proof.
  intros R w.
  apply (unadvertised_tool_is_refused (R := R) false "drop_everything").
  reflexivity.
Defined.

Lemma mode_only_gates_write_tools_witness :
  let R := one_deck in
  let w := start (R := R) 0%nat in
  call_tool (R := R) true "get_note" [("note_id", JInt 7)] w
  = call_tool (R := R) false "get_note" [("note_id", JInt 7)] w.
Proof.
  intros R w.
  apply (mode_only_gates_write_tools (R := R) "get_note"). reflexivity.
Defined.

(** * [list_tools] against [call_tool] *)

Section AdvertisedTools.

Context {R : Runtime}.

(** X13: every field a tool's schema lists under [required] is enforced
    by [call_tool]: when it is absent from the arguments the call raises
    [ValueError] and nothing is sent. *)
Theorem schema_required_fields_are_enforced (read_only : bool) (t : Tool)
  (field : string) (arguments : dict) (w : world) :
  In t (list_tools read_only) ->
  In field (schema_required t) ->
  dict_has arguments field = false ->
  exists msg,
    call_tool read_only (tool_name t) arguments w = (Raise (ValueError msg), w).
Proof.
  intros Ht Hf Habsent. apply dict_get_absent in Habsent.
  assert (Hstr : refused_str (dict_get arguments field) = true)
    by (rewrite Habsent; reflexivity).
  assert (Hmap : negb (is_mapping (dict_get arguments field)) = true)
    by (rewrite Habsent; reflexivity).
  destruct read_only; cbn in Ht;
    repeat (destruct Ht as [<- | Ht]; [ | ]); try contradiction;
    cbn in Hf;
    repeat (destruct Hf as [<- | Hf]; [ | ]); try contradiction;
    first
      [ apply bind_require_str_refused; exact Hstr
      | apply (bind_require_both_refused arguments "deck_id" "fields");
        first [ rewrite Hstr; reflexivity | rewrite Hmap; apply orb_true_r ]
      | apply (bind_require_both_refused arguments "note_id" "fields");
        first [ rewrite Hstr; reflexivity | rewrite Hmap; apply orb_true_r ] ].
Qed.

End AdvertisedTools.

Lemma schema_required_fields_are_enforced_witness :
  let R := one_deck in
  let w := start (R := R) 0%nat in
  let t := nth 1 (list_tools false) (_tool_definition "" "" [] None) in
  tool_name t = "get_deck"
  /\ exists msg,
      call_tool (R := R) false (tool_name t) [("deck", JStr "d1")] w
      = (Raise (ValueError msg), w).
Proof.
  intros R w t. split; [reflexivity | ].
  apply (schema_required_fields_are_enforced (R := R) false t "deck_id").
  - right. left. reflexivity.
  - left. reflexivity.
  - reflexivity.
Defined.

(** X14: the hints of [list_tools] agree with the mode gate: a tool is
    marked read-only exactly when read-only mode advertises it, a tool
    is marked destructive exactly when it is one of the two delete
    tools, and no name is listed twice. *)
Theorem tool_hints_match_the_mode_gate :
  Forall (fun t =>
            readOnlyHint (tool_annotations t)
            = Some (advertised true (tool_name t))
            /\ (destructiveHint (tool_annotations t) = Some true
                <-> mem (tool_name t) ["delete_deck"; "delete_note"] = true))
         (list_tools false)
  /\ NoDup (map tool_name (list_tools false))
  /\ map tool_name (list_tools true) = read_tools
  /\ map tool_name (list_tools false) = (read_tools ++ write_tools)%list.
Proof.
  split; [ | split; [ | split; reflexivity]].
  - repeat constructor; cbn; intros; discriminate.
  - cbn. repeat constructor; cbn; intuition discriminate.
Qed.

(** * What the tools send *)

Lemma dict_find_set_same (d : dict) (k : string) (v : json) :
  dict_find (dict_set d k v) k = Some v.
Proof.
  induction d as [ | [k' v'] d IH]; cbn [dict_set dict_find].
  - rewrite String.eqb_refl. reflexivity.
  - destruct (String.eqb k' k) eqn:Hk; cbn [dict_find].
    + rewrite String.eqb_refl. reflexivity.
    + rewrite Hk. exact IH.
Qed.

Lemma dict_find_set_other (d : dict) (k k' : string) (v : json) :
  k' <> k -> dict_find (dict_set d k v) k' = dict_find d k'.
Proof.
  intros Hne. apply String.eqb_neq in Hne.
  induction d as [ | [k0 v0] d IH]; cbn [dict_set dict_find].
  - rewrite String.eqb_sym, Hne. reflexivity.
  - destruct (String.eqb k0 k) eqn:Hk; cbn [dict_find].
    + apply String.eqb_eq in Hk. subst k0.
      rewrite String.eqb_sym, Hne. reflexivity.
    + destruct (String.eqb k0 k'); [reflexivity | exact IH].
Qed.

Lemma dict_set_all (P : string * json -> Prop) (d : dict) (k : string) (v : json) :
  Forall P d -> P (k, v) -> Forall P (dict_set d k v).
Proof.
  intros Hd Hkv. induction Hd as [ | [k' v'] d Hx Hd IH]; cbn [dict_set].
  - repeat constructor. exact Hkv.
  - destruct (String.eqb k' k); constructor; assumption.
Qed.

Section RequestFacts.

Context {R : Runtime}.

(** What a validated string looks like. *)
Lemma _require_str_nonempty (arguments : dict) (field s : string) :
  _require_str arguments field = Ok s -> str_nonempty s = true.
Proof.
  unfold _require_str.
  destruct (dict_get arguments field) as [ | b | z | f | s0 | l | o];
    try discriminate.
  - intros [= <-]. apply str_of_bool_nonempty.
  - intros [= <-]. apply str_of_int_nonempty.
  - destruct (str_nonempty s0) eqn:H; [ | discriminate].
    intros [= <-]. exact H.
Qed.

(** X15: the two string helpers never hand out an empty string:
    [_require_str] returns a non-empty string or raises [ValueError],
    and [_optional_str] returns a non-empty string or nothing. *)
Theorem string_arguments_are_never_empty (arguments : dict) (field : string)
  (value : json) :
  match _require_str arguments field with
  | Ok s => str_nonempty s = true
  | Raise e => exists msg, e = ValueError msg
  end
  /\ match _optional_str value with
     | Some s => str_nonempty s = true
     | None => True
     end.
Proof.
  split.
  - destruct (_require_str arguments field) as [s | e] eqn:H.
    + apply (_require_str_nonempty _ _ _ H).
    + apply (_require_str_raises_value_error _ _ _ H).
  - unfold _optional_str.
    destruct value as [ | b | z | f | s | l | o]; try exact I.
    + apply str_of_bool_nonempty.
    + apply str_of_int_nonempty.
    + destruct (str_nonempty s) eqn:H; [exact H | exact I].
Qed.

(** X16: [create_note] posts the given fields with [deckId] set to the
    [deck_id] argument, whatever [deckId] the fields carried; every
    other field goes out as given. *)
Theorem create_note_injects_deck_id (arguments : dict) (deck_id : string)
  (fields : dict) (w : world) :
  _require_str arguments "deck_id" = Ok deck_id ->
  dict_get arguments "fields" = JObj fields ->
  exists payload,
    sent (snd (call_tool false "create_note" arguments w))
    = (sent w ++ [mkRequest "POST" "/notes" None (Some payload)])%list
    /\ dict_get payload "deckId" = JStr deck_id
    /\ forall k, k <> "deckId" -> dict_get payload k = dict_get fields k.
Proof.
  intros Hid Hfields.
  exists (dict_set fields "deckId" (JStr deck_id)). split; [ | split].
  - reduce_tool_choice. unfold bind at 1, lift at 1. rewrite Hid.
    unfold bind at 1, lift at 1, _require_mapping. rewrite Hfields.
    unfold create_note. rewrite bind_assoc. unfold bind at 1.
    pose proof (_request_sends_one "POST" "/notes" None
                  (Some (dict_set fields "deckId" (JStr deck_id))) w) as Hs.
    destruct (_request "POST" "/notes" None _ w) as [[response | e] w1];
      cbn [snd] in *; [ | exact Hs].
    rewrite bind_assoc. unfold bind at 1, lift at 1.
    destruct (_json response) as [data | e]; [ | exact Hs].
    unfold bind, lift, ret.
    destruct (_parse_item data "note"); exact Hs.
  - unfold dict_get. rewrite dict_find_set_same. reflexivity.
  - intros k Hk. unfold dict_get.
    rewrite (dict_find_set_other _ _ _ _ Hk). reflexivity.
Qed.

End RequestFacts.

Lemma create_note_injects_deck_id_witness :
  let R := one_deck in
  let arguments :=
    [("deck_id", JStr "d1");
     ("fields", JObj [("front", JStr "q"); ("deckId", JStr "elsewhere")])] in
  exists payload,
    sent (snd (call_tool (R := R) false "create_note" arguments
                 (start (R := R) 0%nat)))
    = [mkRequest "POST" "/notes" None (Some payload)]
    /\ dict_get payload "deckId" = JStr "d1"
    /\ forall k, k <> "deckId" ->
         dict_get payload k
         = dict_get [("front", JStr "q"); ("deckId", JStr "elsewhere")] k.
Proof.
  intros R arguments.
  apply (create_note_injects_deck_id (R := R) arguments "d1"
           [("front", JStr "q"); ("deckId", JStr "elsewhere")]
           (start (R := R) 0%nat)); reflexivity.
Defined.

Section ReplyFacts.

Context {R : Runtime}.

(** A request followed by computation only logs that request. *)
Lemma request_then_pure_sends {A : Type} (method path : string)
  (params json_body : option dict) (k : http_response -> IO A) (w : world) :
  (forall response, pure_io (k response)) ->
  sent (snd (bind (_request method path params json_body) k w))
  = (sent w ++ [mkRequest method path params json_body])%list.
Proof.
  intros Hk. unfold bind.
  pose proof (_request_sends_one method path params json_body w) as Hs.
  destruct (_request method path params json_body w) as [[response | e] w1];
    cbn [snd] in *; [ | exact Hs].
  destruct (Hk response) as [r Hr]. rewrite Hr. exact Hs.
Qed.

(** What [_request] does with a reply below 400. *)
Lemma _request_accepts (method path : string) (params json_body : option dict)
  (w : world) (response : http_response) (u' : U) :
  transport (mkRequest method path params json_body) (upstream w)
  = (Response response, u') ->
  status_code response < 400 ->
  _request method path params json_body w
  = (Ok response,
     mkWorld u' (sent w ++ [mkRequest method path params json_body])).
Proof.
  intros Ht Hs. unfold _request. rewrite Ht.
  apply Z.leb_gt in Hs. rewrite Hs. reflexivity.
Qed.

(** X17: the delete tools do not read the reply: any answer below 400,
    with or without a body, makes them report the deletion. *)
Theorem delete_tools_ignore_the_body (arguments : dict) (id : string)
  (w : world) (response : http_response) (u' : U) :
  status_code response < 400 ->
  (_require_str arguments "note_id" = Ok id ->
   transport (mkRequest "DELETE" ("/notes/" ++ id) None None) (upstream w)
   = (Response response, u') ->
   call_tool false "delete_note" arguments w
   = (Ok [("status", JStr "deleted"); ("note_id", JStr id)],
      mkWorld u' (sent w ++ [mkRequest "DELETE" ("/notes/" ++ id) None None])))
  /\ (_require_str arguments "deck_id" = Ok id ->
      transport (mkRequest "DELETE" ("/decks/" ++ id) None None) (upstream w)
      = (Response response, u') ->
      call_tool false "delete_deck" arguments w
      = (Ok [("status", JStr "deleted"); ("deck_id", JStr id)],
         mkWorld u' (sent w ++ [mkRequest "DELETE" ("/decks/" ++ id) None None]))).
Proof.
  intros Hs. split; intros Hid Ht; reduce_tool_choice;
    unfold bind at 1, lift at 1; rewrite Hid;
    unfold delete_note, delete_deck; rewrite bind_assoc; unfold bind at 1;
    rewrite (_request_accepts _ _ _ _ _ _ _ Ht Hs); reflexivity.
Qed.

(** A 2xx reply without a JSON body fails every method that parses. *)
Lemma unparsable_reply_raises {A : Type} (method path : string)
  (params json_body : option dict) (k : json -> IO A) (w : world)
  (response : http_response) (u' : U) :
  transport (mkRequest method path params json_body) (upstream w)
  = (Response response, u') ->
  status_code response < 400 ->
  body response = None ->
  bind (_request method path params json_body)
       (fun r => bind (lift (_json r)) k) w
  = (Raise (MochiAPIError "Mochi API returned invalid JSON"),
     mkWorld u' (sent w ++ [mkRequest method path params json_body])).
Proof.
  intros Ht Hs Hb. unfold bind at 1.
  rewrite (_request_accepts _ _ _ _ _ _ _ Ht Hs).
  unfold bind, lift, _json. rewrite Hb. reflexivity.
Qed.

(** X18: a write that the upstream accepts with an empty answer, such as
    a 204, is still reported as a failure: [create_note] and
    [update_note] send their request and then raise the invalid-JSON
    error. *)
Theorem accepted_write_without_body_is_reported_failed (payload : dict)
  (note_id : string) (w : world) (response : http_response) (u' : U) :
  status_code response < 400 ->
  body response = None ->
  (transport (mkRequest "POST" "/notes" None (Some payload)) (upstream w)
   = (Response response, u') ->
   create_note payload w
   = (Raise (MochiAPIError "Mochi API returned invalid JSON"),
      mkWorld u' (sent w ++ [mkRequest "POST" "/notes" None (Some payload)])))
  /\ (transport (mkRequest "PATCH" ("/notes/" ++ note_id) None (Some payload))
                (upstream w)
      = (Response response, u') ->
      update_note note_id payload w
      = (Raise (MochiAPIError "Mochi API returned invalid JSON"),
         mkWorld u' (sent w ++ [mkRequest "PATCH" ("/notes/" ++ note_id) None
                                          (Some payload)]))).
Proof.
  intros Hs Hb. split; intros Ht;
    apply (unparsable_reply_raises _ _ _ _ _ _ _ _ Ht Hs Hb).
Qed.

Lemma set_if_str_all (P : string * json -> Prop) (params : dict) (key : string)
  (value : option string) :
  Forall P params ->
  (forall s, str_nonempty s = true -> P (key, JStr s)) ->
  Forall P (set_if_str params key value).
Proof.
  intros Hp Hk. unfold set_if_str.
  destruct value as [s | ]; [ | exact Hp].
  destruct (str_nonempty s) eqn:Hs; [ | exact Hp].
  apply dict_set_all; [exact Hp | apply Hk; exact Hs].
Qed.

Lemma set_if_int_all (P : string * json -> Prop) (params : dict) (key : string)
  (value : option json) :
  Forall P params ->
  (forall v, truthy v = true -> P (key, v)) ->
  Forall P (set_if_int params key value).
Proof.
  intros Hp Hk. unfold set_if_int.
  destruct value as [v | ]; [ | exact Hp].
  destruct (truthy v) eqn:Hv; [ | exact Hp].
  apply dict_set_all; [exact Hp | apply Hk; exact Hv].
Qed.

(** X19: the query of [list_notes] holds only the four known
    parameters, and only with values that are given: an empty string or
    a zero limit is left out. *)
Theorem list_notes_query_is_clean (read_only : bool) (arguments : dict)
  (w : world) (rq : http_request) :
  sent (snd (call_tool read_only "list_notes" arguments w))
  = (sent w ++ [rq])%list ->
  rq_method rq = "GET" /\ rq_path rq = "/notes" /\ rq_json rq = None
  /\ exists params,
      rq_params rq = Some params
      /\ Forall (fun kv => truthy (snd kv) = true
                           /\ In (fst kv) ["deckId"; "cursor"; "limit"; "query"])
                params.
Proof.
  reduce_tool_choice. unfold bind at 1, lift at 1.
  destruct (_optional_int (dict_get arguments "limit")) as [limit | e].
  - unfold list_notes. rewrite bind_assoc.
    rewrite request_then_pure_sends by (intros ?; solve_pure).
    intros Hsent. apply app_inj_tail in Hsent. destruct Hsent as [_ <-].
    cbn [rq_method rq_path rq_json rq_params].
    repeat split. eexists. split; [reflexivity | ].
    repeat first
      [ apply set_if_str_all; [ | intros s Hs; cbn; intuition ]
      | apply set_if_int_all; [ | intros v Hv; cbn; intuition ] ].
    constructor.
  - cbn [snd]. intros Hsent.
    apply (f_equal (@List.length _)) in Hsent.
    rewrite length_app in Hsent. cbn [List.length] in Hsent. lia.
Qed.

End ReplyFacts.

Lemma delete_tools_ignore_the_body_witness :
  let R := no_content in
  call_tool (R := R) false "delete_note" [("note_id", JStr "note-1")]
            (start (R := R) 0%nat)
  = (Ok [("status", JStr "deleted"); ("note_id", JStr "note-1")],
     mkWorld (R := R) 1%nat [mkRequest "DELETE" "/notes/note-1" None None]).
Proof.
  intros R.
  destruct (delete_tools_ignore_the_body (R := R)
              [("note_id", JStr "note-1")] "note-1" (start (R := R) 0%nat)
              (mkResponse 204 None "") 1%nat) as [Hnote _];
    [reflexivity | ].
  apply Hnote; reflexivity.
Defined.

Lemma accepted_write_without_body_is_reported_failed_witness :
  let R := no_content in
  create_note (R := R) [("front", JStr "q")] (start (R := R) 0%nat)
  = (Raise (MochiAPIError "Mochi API returned invalid JSON"),
     mkWorld (R := R) 1%nat
       [mkRequest "POST" "/notes" None (Some [("front", JStr "q")])]).
Proof.
  intros R.
  destruct (accepted_write_without_body_is_reported_failed (R := R)
              [("front", JStr "q")] "" (start (R := R) 0%nat)
              (mkResponse 204 None "") 1%nat) as [Hcreate _];
    [reflexivity | reflexivity | ].
  apply Hcreate; reflexivity.
Defined.

Lemma list_notes_query_is_clean_witness :
  let R := one_deck in
  let arguments := [("deck_id", JStr "d1"); ("cursor", JStr ""); ("limit", JInt 0)] in
  let rq := mkRequest "GET" "/notes" (Some [("deckId", JStr "d1")]) None in
  rq_method rq = "GET" /\ rq_path rq = "/notes" /\ rq_json rq = None
  /\ exists params,
      rq_params rq = Some params
      /\ Forall (fun kv => truthy (snd kv) = true
                           /\ In (fst kv) ["deckId"; "cursor"; "limit"; "query"])
                params.
Proof.
  intros R arguments rq.
  apply (list_notes_query_is_clean (R := R) true arguments
           (start (R := R) 0%nat) rq).
  reflexivity.
Defined.

(** * Further properties of the catalog *)

Lemma Forall_firstn {A : Type} (P : A -> Prop) (n : nat) :
  forall l, Forall P l -> Forall P (firstn n l).
Proof.
  induction n as [ | n IH]; intros l Hl; [constructor | ].
  destruct Hl as [ | x l Hx Hl]; cbn [firstn]; constructor;
    [exact Hx | apply IH; exact Hl].
Qed.

Section CatalogFacts.

Context {R : Runtime}.

(** X20: a deck has an identifier or not; if it has one the identifier
    is not empty and [_deck_to_resource] gives the entry whose URI is
    the prefix followed by it; if it has none [_deck_to_resource]
    raises. *)
Theorem deck_resource_iff_identified (deck : dict) :
  match _deck_identifier deck with
  | Some i =>
      str_nonempty i = true
      /\ exists r, _deck_to_resource deck = Ok r
                   /\ uri r = "mochi://deck/" ++ i
  | None =>
      _deck_to_resource deck
      = Raise (MochiAPIError "Deck payload is missing an identifier")
  end.
Proof.
  destruct (_deck_identifier deck) as [i | ] eqn:Hi.
  - split; [apply (first_identifier_nonempty _ _ _ Hi) | ].
    destruct (_deck_to_resource_identified _ _ Hi) as [_ Hr].
    exists (build_resource deck i). split; [exact Hr | reflexivity].
  - unfold _deck_to_resource. rewrite Hi. reflexivity.
Qed.

Lemma deck_resources_addressable (decks : list dict) :
  Forall (fun r => exists i, uri r = _DECK_URI_PREFIX ++ i
                             /\ str_nonempty i = true)
         (deck_resources decks).
Proof.
  induction decks as [ | deck rest IH]; cbn [deck_resources flat_map];
    [constructor | ].
  destruct (_deck_identifier deck) as [i | ] eqn:Hi; [ | exact IH].
  cbn [app]. constructor; [ | exact IH].
  exists i. split; [reflexivity | apply (first_identifier_nonempty _ _ _ Hi)].
Qed.

Lemma loop_keeps_addressable (fuel : nat) :
  forall acc cursor w acc' w',
    Forall (fun r => exists i, uri r = _DECK_URI_PREFIX ++ i
                               /\ str_nonempty i = true) acc ->
    list_resources_loop fuel acc cursor w = Some (Ok acc', w') ->
    Forall (fun r => exists i, uri r = _DECK_URI_PREFIX ++ i
                               /\ str_nonempty i = true) acc'.
Proof.
  induction fuel as [ | fuel IH]; intros acc cursor w acc' w' Hacc;
    [discriminate | ].
  rewrite loop_step.
  destruct (list_decks cursor (Some (JInt 200)) w) as [[page | e] w1];
    [ | discriminate].
  cbv zeta.
  assert (Hnext : Forall (fun r => exists i, uri r = _DECK_URI_PREFIX ++ i
                                             /\ str_nonempty i = true)
                         (acc ++ deck_resources (items page)))
    by (apply Forall_app; split;
        [exact Hacc | apply deck_resources_addressable]).
  destruct (negb (opt_truthy (next_cursor page))
            || (_MAX_DECK_RESOURCES <=? _)%nat).
  - intros H. assert (acc' = (acc ++ deck_resources (items page))%list)
      by congruence. subst acc'. exact Hnext.
  - apply IH. exact Hnext.
Qed.

(** X21: every entry of a returned catalog can be addressed: its URI is
    [mochi://deck/] followed by a non-empty identifier. *)
Theorem catalog_entries_are_addressable (fuel : nat) (w : world) :
  match list_resources fuel w with
  | Some (Ok rs, _) =>
      Forall (fun r => exists i, uri r = "mochi://deck/" ++ i
                                 /\ str_nonempty i = true) rs
  | _ => True
  end.
Proof.
  unfold list_resources.
  destruct (list_resources_loop fuel [] None w) as [[[acc | e] w1] | ] eqn:Hl;
    try exact I.
  apply Forall_firstn.
  apply (loop_keeps_addressable _ _ _ _ _ _ (Forall_nil _) Hl).
Qed.

End CatalogFacts.

Section CatalogRequests.

Context {R : Runtime}.

Lemma list_decks_sends_page_request (cursor : option string) (w : world) :
  sent (snd (list_decks cursor (Some (JInt 200)) w))
  = (sent w ++ [page_request cursor])%list.
Proof.
  unfold list_decks, page_request.
  apply request_then_pure_sends. intros response. solve_pure.
Qed.

Lemma page_request_params (cursor : option string) :
  rq_params (page_request cursor)
  = Some match cursor with
         | Some (String a c) => [("cursor", JStr (String a c)); ("limit", JInt 200)]
         | _ => [("limit", JInt 200)]
         end.
Proof. destruct cursor as [[ | a c] | ]; reflexivity. Qed.

Lemma page_request_is_page_request (cursor : option string) :
  is_page_request (page_request cursor).
Proof.
  repeat split. rewrite page_request_params. eexists. split; [reflexivity | ].
  destruct cursor as [[ | a c] | ]; reflexivity.
Qed.

Lemma loop_requests (fuel : nat) :
  forall acc cursor w r w',
    list_resources_loop fuel acc cursor w = Some (r, w') ->
    exists new,
      sent w' = (sent w ++ page_request cursor :: new)%list
      /\ Forall is_page_request new
      /\ (List.length new < fuel)%nat.
Proof.
  induction fuel as [ | fuel IH]; intros acc cursor w r w' Hl; [discriminate | ].
  rewrite loop_step in Hl.
  pose proof (list_decks_sends_page_request cursor w) as Hs.
  destruct (list_decks cursor (Some (JInt 200)) w) as [[page | e] w1];
    cbn [snd] in Hs.
  - cbv zeta in Hl.
    destruct (negb (opt_truthy (next_cursor page))
              || (_MAX_DECK_RESOURCES <=? _)%nat).
    + assert (w' = w1) by congruence. subst w'.
      exists []. split; [exact Hs | ]. split; [constructor | cbn; lia].
    + destruct (IH _ _ _ _ _ Hl) as [new [Hnew [Hall Hlen]]].
      exists (page_request (next_cursor page) :: new). split; [ | split].
      * rewrite Hnew, Hs, <- app_assoc. reflexivity.
      * constructor; [apply page_request_is_page_request | exact Hall].
      * cbn [List.length]. lia.
  - assert (w' = w1) by congruence. subst w'.
    exists []. split; [exact Hs | ]. split; [constructor | cbn; lia].
Qed.

(** X22: a listing that returns, with a catalog or with an error, has
    sent between one and [fuel] requests, all of them [GET /decks] with
    limit 200 and no body, the first one without a cursor. *)
Theorem catalog_only_reads_deck_pages (fuel : nat) (w : world)
  (r : result (list Resource)) (w' : world) :
  list_resources fuel w = Some (r, w') ->
  exists new,
    sent w' = (sent w ++ page_request None :: new)%list
    /\ rq_params (page_request None) = Some [("limit", JInt 200)]
    /\ Forall is_page_request (page_request None :: new)
    /\ (List.length (page_request None :: new) <= fuel)%nat.
Proof.
  unfold list_resources. intros H.
  destruct (list_resources_loop fuel [] None w) as [[[acc | e] w1] | ] eqn:Hl;
    try discriminate;
    assert (w' = w1) by congruence; subst w';
    destruct (loop_requests _ _ _ _ _ _ Hl) as [new [Hnew [Hall Hlen]]];
    exists new;
    (split; [exact Hnew | ]); (split; [reflexivity | ]);
    (split; [constructor; [apply page_request_is_page_request | exact Hall]
            | cbn [List.length]; lia]).
Qed.

(** X23: when the first page announces no successor the catalog is that
    page's identified decks, capped at 500, after a single request. *)
Theorem single_page_catalog (fuel : nat) (w : world) (page : PaginatedResult)
  (w1 : world) :
  list_decks None (Some (JInt 200)) w = (Ok page, w1) ->
  opt_truthy (next_cursor page) = false ->
  list_resources (S fuel) w
  = Some (Ok (firstn 500 (deck_resources (items page))), w1)
  /\ sent w1 = (sent w ++ [page_request None])%list.
Proof.
  intros Hpage Hcur. split.
  - unfold list_resources. rewrite loop_step, Hpage. cbv zeta.
    rewrite Hcur. reflexivity.
  - pose proof (list_decks_sends_page_request None w) as Hs.
    rewrite Hpage in Hs. exact Hs.
Qed.


End CatalogRequests.

Lemma catalog_only_reads_deck_pages_witness :
  let R := second_page_fails in
  exists new,
    [page_request None; page_request (Some "p1")] = ([] ++ page_request None :: new)%list
    /\ rq_params (page_request None) = Some [("limit", JInt 200)]
    /\ Forall is_page_request (page_request None :: new)
    /\ (List.length (page_request None :: new) <= 5)%nat.
Proof.
  intros R.
  apply (catalog_only_reads_deck_pages (R := R) 5 (start (R := R) 0%nat)
           (Raise (MochiAPIError "Mochi API error 500: boom"))
           (mkWorld (R := R) 2%nat [page_request None; page_request (Some "p1")])).
  vm_compute. reflexivity.
Defined.

Lemma single_page_catalog_witness :
  let R := three_pages in
  let w := mkWorld (R := R) 2%nat [] in
  list_resources (R := R) 1 w
  = Some (Ok (firstn 500 (deck_resources (R := R)
                            (items (numbered_page 400 150 None)))),
          mkWorld (R := R) 3%nat [page_request None])
  /\ [page_request None] = ([] ++ [page_request None])%list.
Proof.
  intros R w.
  apply (single_page_catalog (R := R) 0 w (numbered_page 400 150 None)
           (mkWorld (R := R) 3%nat [page_request None]));
    vm_compute; reflexivity.
Defined.


(** * The list tools and the create tool, end to end *)




Section EndToEnd.

Context {R : Runtime}.

(** X25: the [list_decks] tool answers with a normal form of the
    upstream reply: its payload, parsed again as a page of decks, is the
    page parsed from the reply. *)
Theorem list_decks_tool_normalises (read_only : bool) (arguments : dict)
  (limit : option json) (w : world) (response : http_response) (u' : U)
  (data : json) :
  let rq := mkRequest "GET" "/decks"
              (Some (set_if_int
                       (set_if_str [] "cursor"
                          (_optional_str (dict_get arguments "cursor")))
                       "limit" limit))
              None in
  _optional_int (dict_get arguments "limit") = Ok limit ->
  transport rq (upstream w) = (Response response, u') ->
  status_code response < 400 ->
  body response = Some data ->
  exists out,
    call_tool read_only "list_decks" arguments w
    = (Ok out, mkWorld u' (sent w ++ [rq]))
    /\ _parse_paginated (JObj out) "decks" = _parse_paginated data "decks".
Proof.
  intros rq Hlimit Ht Hs Hb.
  destruct (parsed_page_cursor data "decks") as [page [Hpage Hcur]].
  exists (to_payload page "decks"). split.
  - reduce_tool_choice. unfold bind at 1, lift at 1. rewrite Hlimit.
    unfold list_decks. rewrite bind_assoc. unfold bind at 1.
    rewrite (_request_accepts _ _ _ _ _ _ _ Ht Hs).
    unfold bind, lift, ret, _json. rewrite Hb, Hpage. reflexivity.
  - rewrite Hpage. apply to_payload_parses_back; [discriminate | exact Hcur].
Qed.


End EndToEnd.

Lemma list_decks_tool_normalises_witness :
  let R := one_deck in
  exists out,
    call_tool (R := R) true "list_decks" [("limit", JInt 50)] (start (R := R) 0%nat)
    = (Ok out,
       mkWorld (R := R) 1%nat
         [mkRequest "GET" "/decks" (Some [("limit", JInt 50)]) None])
    /\ _parse_paginated (JObj out) "decks"
       = _parse_paginated (JObj [("deck", JObj [("id", JStr "42")])]) "decks".
Proof.
  intros R.
  apply (list_decks_tool_normalises (R := R) true [("limit", JInt 50)]
           (Some (JInt 50)) (start (R := R) 0%nat)
           (mkResponse 200 (Some (JObj [("deck", JObj [("id", JStr "42")])])) "")
           1%nat);
    reflexivity.
Defined.


Section ItemTools.

Context {R : Runtime}.

(** X27: [get_deck] and [get_note] wrap the item of the reply: on a
    reply below 400 whose body is a JSON object the answer is that
    object's item under [deck] or [note]; on any other JSON value the
    tool raises the unexpected-format error, after the request. *)
Theorem get_tools_wrap_the_item (read_only : bool) (arguments : dict)
  (id : string) (w : world) (response : http_response) (u' : U) (data : json) :
  status_code response < 400 ->
  body response = Some data ->
  (_require_str arguments "deck_id" = Ok id ->
   transport (mkRequest "GET" ("/decks/" ++ id) None None) (upstream w)
   = (Response response, u') ->
   call_tool read_only "get_deck" arguments w
   = (match _parse_item data "deck" with
      | Ok found => Ok [("deck", JObj found)]
      | Raise e => Raise e
      end,
      mkWorld u' (sent w ++ [mkRequest "GET" ("/decks/" ++ id) None None]))
   /\ (is_mapping data = false ->
       fst (call_tool read_only "get_deck" arguments w) = Raise unexpected_format))
  /\ (_require_str arguments "note_id" = Ok id ->
      transport (mkRequest "GET" ("/notes/" ++ id) None None) (upstream w)
      = (Response response, u') ->
      call_tool read_only "get_note" arguments w
      = (match _parse_item data "note" with
         | Ok found => Ok [("note", JObj found)]
         | Raise e => Raise e
         end,
         mkWorld u' (sent w ++ [mkRequest "GET" ("/notes/" ++ id) None None]))
      /\ (is_mapping data = false ->
          fst (call_tool read_only "get_note" arguments w) = Raise unexpected_format)).
Proof.
  intros Hs Hb.
  assert (Hrun : forall tool field key path,
             (tool = "get_deck" /\ field = "deck_id" /\ key = "deck"
              /\ path = "/decks/")
             \/ (tool = "get_note" /\ field = "note_id" /\ key = "note"
                 /\ path = "/notes/") ->
             _require_str arguments field = Ok id ->
             transport (mkRequest "GET" (path ++ id) None None) (upstream w)
             = (Response response, u') ->
             call_tool read_only tool arguments w
             = (match _parse_item data key with
                | Ok found => Ok [(key, JObj found)]
                | Raise e => Raise e
                end,
                mkWorld u' (sent w ++ [mkRequest "GET" (path ++ id) None None]))).
  { intros tool field key path [[-> [-> [-> ->]]] | [-> [-> [-> ->]]]] Hid Ht;
      reduce_tool_choice; unfold bind at 1, lift at 1; rewrite Hid;
      unfold get_deck, get_note; rewrite bind_assoc; unfold bind at 1;
      rewrite (_request_accepts _ _ _ _ _ _ _ Ht Hs);
      unfold bind, lift, ret, _json; rewrite Hb;
      destruct (_parse_item data _); reflexivity. }
  split; intros Hid Ht.
  - rewrite (Hrun "get_deck" "deck_id" "deck" "/decks/") by (auto 6).
    split; [reflexivity | ].
    intros Hm. destruct data; try reflexivity. discriminate.
  - rewrite (Hrun "get_note" "note_id" "note" "/notes/") by (auto 6).
    split; [reflexivity | ].
    intros Hm. destruct data; try reflexivity. discriminate.
Qed.

(** X28: [update_deck] and [update_note] send [PATCH] to the path of the
    identifier with exactly the given fields as body: nothing is added
    to them and nothing is taken away. *)
Theorem update_tools_forward_fields (arguments : dict) (id : string)
  (fields : dict) (w : world) :
  dict_get arguments "fields" = JObj fields ->
  (_require_str arguments "deck_id" = Ok id ->
   sent (snd (call_tool false "update_deck" arguments w))
   = (sent w ++ [mkRequest "PATCH" ("/decks/" ++ id) None (Some fields)])%list)
  /\ (_require_str arguments "note_id" = Ok id ->
      sent (snd (call_tool false "update_note" arguments w))
      = (sent w ++ [mkRequest "PATCH" ("/notes/" ++ id) None (Some fields)])%list).
Proof.
  intros Hfields. split; intros Hid; reduce_tool_choice;
    unfold bind at 1, lift at 1; rewrite Hid;
    unfold bind at 1, lift at 1, _require_mapping; rewrite Hfields;
    unfold update_deck, update_note; rewrite bind_assoc;
    apply request_then_pure_sends; intros response; solve_pure.
Qed.

End ItemTools.

Lemma get_tools_wrap_the_item_witness :
  let R := one_deck in
  call_tool (R := R) true "get_deck" [("deck_id", JInt 42)] (start (R := R) 0%nat)
  = (Ok [("deck", JObj [("id", JStr "42")])],
     mkWorld (R := R) 1%nat [mkRequest "GET" "/decks/42" None None]).
Proof.
  intros R.
  destruct (get_tools_wrap_the_item (R := R) true [("deck_id", JInt 42)] "42"
              (start (R := R) 0%nat)
              (mkResponse 200 (Some (JObj [("deck", JObj [("id", JStr "42")])])) "")
              1%nat (JObj [("deck", JObj [("id", JStr "42")])]))
    as [Hdeck _]; [reflexivity | reflexivity | ].
  destruct Hdeck as [Hrun _]; [reflexivity | reflexivity | ].
  exact Hrun.
Defined.

Lemma update_tools_forward_fields_witness :
  let R := one_deck in
  let arguments := [("note_id", JStr "n1"); ("fields", JObj [("front", JStr "q")])] in
  sent (snd (call_tool (R := R) false "update_note" arguments (start (R := R) 0%nat)))
  = [mkRequest "PATCH" "/notes/n1" None (Some [("front", JStr "q")])].
Proof.
  intros R arguments.
  destruct (update_tools_forward_fields (R := R) arguments "n1"
              [("front", JStr "q")] (start (R := R) 0%nat)) as [_ Hnote];
    [reflexivity | ].
  apply Hnote. reflexivity.
Defined.
